(** * FileReNamer: a shallow embedding of [file_renamer.py]

    The development follows the layout of the Python class:

    - [PyStr]: the [str] builtins the class relies on ([in], [startswith],
      [endswith], [index], slicing, [replace], [str] of an [int]), over
      Rocq's [string];
    - [PyDict]: insertion-ordered dictionaries and dict comprehensions;
    - the effects of the class (the file system behind [os], [print],
      [input], exceptions) as a state-and-error monad over a [World];
    - the methods of [FileReNamer], under their Python names;
    - the properties of the planner and of the executor;
    - further properties of the helpers, the plans and the other
      methods ([show_dir], [replace_these], [rename_with_enum]). *)

From Stdlib Require Import Strings.String Strings.Ascii Lists.List.
From Stdlib Require Import ZArith.ZArith Numbers.DecimalString.
From Stdlib Require Import Numbers.DecimalPos Numbers.DecimalZ.
From Stdlib Require Import Arith.PeanoNat Bool.Bool micromega.Lia.
Import ListNotations.

Local Open Scope list_scope.
Local Open Scope string_scope.

(* ================================================================= *)
(** ** Python exceptions and results *)

(** The exceptions that the modelled code can raise: [str.index] raises
    [ValueError] when the substring is absent (and reading a file that
    does not decode raises a [ValueError] too), [input] raises
    [EOFError] on an exhausted standard input, [os.rename] and [open]
    raise [OSError] (or one of its subclasses), [.group(1)] raises
    [IndexError] when the pattern has no group, joining [None] to a
    string raises [TypeError], and [re.search] raises [re.error], here
    [ReError], on a pattern that does not compile. *)
Inductive exn : Type :=
| ValueError
| EOFError
| OSError
| IndexError
| TypeError
| ReError.

(** The result of evaluating a Python expression or statement. *)
Inductive Result (A : Type) : Type :=
| Ret (a : A)
| Raise (e : exn).

Arguments Ret {A} a.
Arguments Raise {A} e.

(* ================================================================= *)
(** ** The [str] builtins *)

Module PyStr.

(** [s.startswith(p)] *)
Definition startswith (s p : string) : bool := String.prefix p s.

(** [s.endswith(suf)]: [suf] is [s] itself or a suffix of its tail. *)
Fixpoint endswith (s suf : string) : bool :=
  (s =? suf) ||
  match s with
  | EmptyString => false
  | String _ s' => endswith s' suf
  end.

(** [sub in s]: [sub] starts at some position of [s]. *)
Fixpoint contains (s sub : string) : bool :=
  String.prefix sub s ||
  match s with
  | EmptyString => false
  | String _ s' => contains s' sub
  end.

(** [s.find(sub)], with [None] for Python's [-1]. *)
Fixpoint find (s sub : string) : option nat :=
  if String.prefix sub s then Some 0
  else match s with
       | EmptyString => None
       | String _ s' => option_map S (find s' sub)
       end.

(** [s.index(sub)]: like [find], but raises [ValueError] when absent. *)
Definition index (s sub : string) : Result nat :=
  match find s sub with
  | Some i => Ret i
  | None => Raise ValueError
  end.

(** [s[:n]] for a non-negative [n]. *)
Fixpoint slice_to (s : string) (n : nat) : string :=
  match n, s with
  | S n', String c s' => String c (slice_to s' n')
  | _, _ => EmptyString
  end.

(** [s[n:]] for a non-negative [n]. *)
Fixpoint slice_from (s : string) (n : nat) : string :=
  match n, s with
  | S n', String _ s' => slice_from s' n'
  | _, _ => s
  end.

(** [s.replace("", new)]: [new] goes before every character and at the
    end. *)
Fixpoint replace_empty (new s : string) : string :=
  match s with
  | EmptyString => new
  | String c s' => new ++ String c (replace_empty new s')
  end.

(** [s.replace(old, new)] for a non-empty [old], as one left-to-right
    scan: [skip] counts the characters of the current match that are
    still to be dropped. *)
Fixpoint replace_scan (old new : string) (skip : nat) (s : string) : string :=
  match s with
  | EmptyString => EmptyString
  | String c s' =>
      match skip with
      | S k => replace_scan old new k s'
      | O =>
          if String.prefix old s
          then new ++ replace_scan old new (String.length old - 1) s'
          else String c (replace_scan old new 0 s')
      end
  end.

(** [s.replace(old, new)] *)
Definition replace (s old new : string) : string :=
  match old with
  | EmptyString => replace_empty new s
  | _ => replace_scan old new 0 s
  end.

(** [str(z)] for an [int]. *)
Definition str (z : Z) : string := NilZero.string_of_int (Z.to_int z).

End PyStr.


(* ================================================================= *)
(** ** The specification of replacing *)

(** The specification of replacing, for a non-empty [old]: scanning
    from the left, an occurrence of [old] at the current position is
    replaced by [new] and the scan resumes after it (so occurrences do
    not overlap); otherwise one character is copied. *)
Inductive Replaced (old new : string) : string -> string -> Prop :=
| Replaced_end :
    Replaced old new "" ""
| Replaced_hit (t r : string) :
    Replaced old new t r ->
    Replaced old new (old ++ t) (new ++ r)
| Replaced_copy (c : ascii) (t r : string) :
    String.prefix old (String c t) = false ->
    Replaced old new t r ->
    Replaced old new (String c t) (String c r).


(* ================================================================= *)
(** ** Dictionaries *)

(** A Python [dict] with string keys and values: an association list
    in insertion order, in which every key occurs once. *)
Module PyDict.

Definition dict : Type := list (string * string).

(** [d[k] = v]: a key that is present keeps its place and takes the new
    value; a new key goes to the end. *)
Fixpoint set (d : dict) (k v : string) : dict :=
  match d with
  | [] => [(k, v)]
  | (k', v') :: d' =>
      if (k' =? k)%string then (k', v) :: d' else (k', v') :: set d' k v
  end.

(** [d.get(k)] *)
Fixpoint get (d : dict) (k : string) : option string :=
  match d with
  | [] => None
  | (k', v') :: d' => if (k' =? k)%string then Some v' else get d' k
  end.

(** [d.items()] and [d.keys()], in insertion order. *)
Definition items (d : dict) : list (string * string) := d.
Definition keys (d : dict) : list string := map fst d.

(** [{key(x): value(x) for x in xs if cond(x)}] *)
Definition comprehension {A : Type} (xs : list A) (cond : A -> bool)
    (key value : A -> string) : dict :=
  fold_left (fun d x => if cond x then set d (key x) (value x) else d) xs [].

(** The same comprehension when evaluating the value can raise: the
    first exception ends the construction. [d] is the dict built so
    far. *)
Fixpoint comprehension_try {A : Type} (xs : list A) (cond : A -> bool)
    (key : A -> string) (value : A -> Result string) (d : dict) : Result dict :=
  match xs with
  | [] => Ret d
  | x :: xs' =>
      if cond x then
        match value x with
        | Ret v => comprehension_try xs' cond key value (set d (key x) v)
        | Raise e => Raise e
        end
      else comprehension_try xs' cond key value d
  end.

(** The value of an element whose evaluation did not raise. *)
Definition value_or_empty {A : Type} (value : A -> Result string) (x : A)
    : string :=
  match value x with
  | Ret v => v
  | Raise _ => ""
  end.

(** [enumerate(xs)] *)
Definition enumerate {A : Type} (xs : list A) : list (nat * A) :=
  combine (seq 0 (List.length xs)) xs.


End PyDict.

Import PyDict.

(* ================================================================= *)
(** ** Effects: file system, console, exceptions *)

(** The part of [os] and [open] that the class uses, over an abstract
    file-system state. [os.path.exists] never raises. [os.rename] and
    [open] can fail: a rename that fails raises [OSError] and leaves
    the state as it is. *)
Class FileSystem (FS : Type) : Type := {
  (** [os.path.exists(path)] *)
  fs_exists : FS -> string -> bool;
  (** the state after [os.rename(old_path, new_path)], or [None] when
      the call raises *)
  fs_rename : FS -> string -> string -> option FS;
  (** [os.listdir(directory)], of the directory of the class, which
      its setter has checked to exist *)
  fs_listdir : FS -> string -> list string;
  (** [open(path).read()] *)
  fs_read : FS -> string -> Result string
}.

(** What a run does to its environment, in order. *)
Inductive event : Type :=
| EvPrint (text : string)
| EvInput (prompt : string)
| EvRename (old_path new_path : string).

(** The environment of a run: the file system, the lines still to be
    read from standard input, and the events so far. *)
Record World (FS : Type) : Type := mkWorld {
  fs : FS;
  stdin : list string;
  trace : list event
}.

Arguments mkWorld {FS} fs stdin trace.
Arguments fs {FS} w.
Arguments stdin {FS} w.
Arguments trace {FS} w.

(** A statement: from a world to a result and the world it leaves. *)
Definition M (FS A : Type) : Type := World FS -> Result A * World FS.

Definition ret {FS A : Type} (a : A) : M FS A := fun w => (Ret a, w).

Definition bind {FS A B : Type} (c : M FS A) (k : A -> M FS B) : M FS B :=
  fun w =>
    match c w with
    | (Ret a, w') => k a w'
    | (Raise e, w') => (Raise e, w')
    end.

Notation "x <- c ;; k" := (bind c (fun x => k))
  (at level 61, c at next level, right associativity).
Notation "c ;; k" := (bind c (fun _ => k))
  (at level 61, right associativity).

(** An expression that can raise, evaluated as a statement. *)
Definition lift {FS A : Type} (r : Result A) : M FS A := fun w => (r, w).

Definition log {FS : Type} (e : event) (w : World FS) : World FS :=
  mkWorld (fs w) (stdin w) (trace w ++ [e])%list.

(** [print(text)] *)
Definition print {FS : Type} (text : string) : M FS unit :=
  fun w => (Ret tt, log (EvPrint text) w).

(** [input(prompt)] *)
Definition input {FS : Type} (prompt : string) : M FS string :=
  fun w =>
    match stdin w with
    | [] => (Raise EOFError, log (EvInput prompt) w)
    | line :: rest =>
        (Ret line, mkWorld (fs w) rest (trace w ++ [EvInput prompt])%list)
    end.

(** [for x in xs: body(x)] *)
Fixpoint for_each {FS A : Type} (body : A -> M FS unit) (xs : list A)
    : M FS unit :=
  match xs with
  | [] => ret tt
  | x :: xs' => body x ;; for_each body xs'
  end.

(** Characters that cannot be written inside a string literal here. *)
Definition tab : string := String "009"%char "".
Definition newline : string := String "010"%char "".
Definition dquote : string := String "034"%char "".

(** ["-"*20] *)
Definition dashes : string := "--------------------".

(** [os.path.join(a, b)] of [posixpath]. *)
Definition os_path_join (a b : string) : string :=
  if PyStr.startswith b "/" then b
  else if (a =? "")%string || PyStr.endswith a "/" then a ++ b
  else a ++ "/" ++ b.

(** A match object, as far as the class looks at it: what [.group(1)]
    gives. The pattern may have no group 1; a group that took no part
    in the match gives [None]. *)
Inductive Match : Type :=
| NoGroup1
| Group1 (captured : option string).

(** [m.group(1)] *)
Definition group1 (m : Match) : Result (option string) :=
  match m with
  | NoGroup1 => Raise IndexError
  | Group1 captured => Ret captured
  end.

(** [re.search(pattern, txt)]: the first match, [None] when nothing
    matches, or the exception of a pattern that does not compile. *)
Definition Regex : Type := string -> string -> Result (option Match).

(* ================================================================= *)
(** ** The class [FileReNamer] *)

Module FileReNamer.
Import PyStr.

(** An instance holds the path of its target folder. *)
Record t : Type := make { directory : string }.

(** [get_ext(fname)]: [fname[fname.index("."):]] *)
Definition get_ext (fname : string) : Result string :=
  match index fname "." with
  | Ret i => Ret (slice_from fname i)
  | Raise e => Raise e
  end.

(** [get_suffixed(fname, suffix)]:
    [fname[:fname.index(".")]+suffix+FileReNamer.get_ext(fname)] *)
Definition get_suffixed (fname suffix : string) : Result string :=
  match index fname "." with
  | Ret i =>
      match get_ext fname with
      | Ret ext => Ret (slice_to fname i ++ suffix ++ ext)
      | Raise e => Raise e
      end
  | Raise e => Raise e
  end.

(** [get_prefixed(fname, prefix)]: [prefix+fname] *)
Definition get_prefixed (fname prefix : string) : string := prefix ++ fname.

(** [join_with_dir(fname)] *)
Definition join_with_dir (self : t) (fname : string) : string :=
  os_path_join (directory self) fname.

(** *** The change lists

    Each renaming method first builds [change_list], a dict from old
    name to new name, out of the current [filenames]. *)

(** [replace]:
    [{filename: filename.replace(change_this, to_this)
      for filename in self.filenames if change_this in filename}] *)
Definition replace_change_list (change_this to_this : string)
    (filenames : list string) : dict :=
  comprehension filenames
    (fun filename => contains filename change_this)
    (fun filename => filename)
    (fun filename => PyStr.replace filename change_this to_this).

(** [add_prefix]:
    [{filename: prefix+filename
      for filename in self.filenames if not filename.startswith(prefix)}] *)
Definition add_prefix_change_list (prefix : string)
    (filenames : list string) : dict :=
  comprehension filenames
    (fun filename => negb (startswith filename prefix))
    (fun filename => filename)
    (fun filename => prefix ++ filename).

(** [add_suffix]:
    [{filename: FileReNamer.get_suffixed(filename, suffix)
      for filename in self.filenames if not filename.endswith(suffix)}] *)
Definition add_suffix_change_list (suffix : string)
    (filenames : list string) : Result dict :=
  comprehension_try filenames
    (fun filename => negb (endswith filename suffix))
    (fun filename => filename)
    (fun filename => get_suffixed filename suffix)
    [].

(** [add_enum]:
    [{filename: filename + sep + str(idx + start)
      for idx, filename in enumerate(self.filenames)}].
    The parameter [loc] of the method does not occur in the expression. *)
Definition add_enum_change_list (start : Z) (loc sep : string)
    (filenames : list string) : dict :=
  comprehension (enumerate filenames)
    (fun _ => true)
    (fun '(idx, filename) => filename)
    (fun '(idx, filename) => filename ++ sep ++ str (Z.of_nat idx + start)).

(** [rename_with_enum]:
    [{filename: basename + str(idx + 1) + self.get_ext(filename)
      for idx, filename in enumerate(self.filenames)}] *)
Definition rename_with_enum_change_list (basename : string)
    (filenames : list string) : Result dict :=
  comprehension_try (enumerate filenames)
    (fun _ => true)
    (fun '(idx, filename) => filename)
    (fun '(idx, filename) =>
       match get_ext filename with
       | Ret ext => Ret (basename ++ str (Z.of_nat idx + 1) ++ ext)
       | Raise e => Raise e
       end)
    [].

Section Methods.
Context {FS : Type} `{FileSystem FS}.
Variable re_search : Regex.

(** [os.path.exists(path)] *)
Definition os_path_exists (path : string) : M FS bool :=
  fun w => (Ret (fs_exists (fs w) path), w).

(** [os.rename(old_path, new_path)]: the call is recorded whether it
    succeeds or raises. *)
Definition os_rename (old_path new_path : string) : M FS unit :=
  fun w =>
    match fs_rename (fs w) old_path new_path with
    | Some st =>
        (Ret tt,
         mkWorld st (stdin w) (trace w ++ [EvRename old_path new_path])%list)
    | None =>
        (Raise OSError,
         mkWorld (fs w) (stdin w)
                 (trace w ++ [EvRename old_path new_path])%list)
    end.

(** [open(path).read()] *)
Definition open_read (path : string) : M FS string :=
  fun w => (fs_read (fs w) path, w).

(** The property [filenames]: [os.listdir(self.directory)], read anew
    at every use. *)
Definition filenames (self : t) : M FS (list string) :=
  fun w => (Ret (fs_listdir (fs w) (directory self)), w).

(** [rename(old_path, new_path)]: renames one file, unless the source
    is missing or the target is taken. *)
Definition rename (self : t) (old_path new_path : string) : M FS unit :=
  src <- os_path_exists old_path ;;
  if negb src then
    print ("ERROR: " ++ dquote ++ old_path ++ dquote
           ++ " does not exist. Skipping...")
  else
    dst <- os_path_exists new_path ;;
    if dst then
      print ("ERROR: " ++ dquote ++ new_path ++ dquote
             ++ " already exists. Skipping...")
    else
      os_rename old_path new_path.

(** The preview that [rename_these] prints when [display] is set. *)
Definition show_changes (files_to_change : dict) : M FS unit :=
  print (dashes ++ newline ++ "CHANGES:" ++ newline ++ dashes) ;;
  for_each (fun '(old, new) => print (old ++ tab ++ "->" ++ tab ++ new))
           (items files_to_change).

(** [rename_these(files_to_change, display)]: asks once, and renames
    every entry when the answer is ["y"]. Both exits return [None]. *)
Definition rename_these (self : t) (files_to_change : dict) (display : bool)
    : M FS unit :=
  (if display then show_changes files_to_change else ret tt) ;;
  ans <- input "Make these changes? (y/n): " ;;
  if negb (ans =? "y")%string then
    print ("Changes discarded..." ++ newline)
  else
    for_each (fun '(old, new) =>
                rename self (join_with_dir self old) (join_with_dir self new))
             (items files_to_change).

(** [replace(change_this, to_this)] *)
Definition replace (self : t) (change_this to_this : string) : M FS unit :=
  names <- filenames self ;;
  rename_these self (replace_change_list change_this to_this names) true.

(** [add_prefix(prefix, display)] *)
Definition add_prefix (self : t) (prefix : string) (display : bool)
    : M FS unit :=
  names <- filenames self ;;
  rename_these self (add_prefix_change_list prefix names) display.

(** [add_suffix(suffix, display)] *)
Definition add_suffix (self : t) (suffix : string) (display : bool)
    : M FS unit :=
  names <- filenames self ;;
  change_list <- lift (add_suffix_change_list suffix names) ;;
  rename_these self change_list display.

(** [add_enum(start, loc, sep, display)] *)
Definition add_enum (self : t) (start : Z) (loc sep : string) (display : bool)
    : M FS unit :=
  names <- filenames self ;;
  rename_these self (add_enum_change_list start loc sep names) display.

(** The joiner that [add_from_file] picks from [loc], applied to a
    filename and to what [.group(1)] gave: a string or [None]. With
    [None], [get_suffixed] raises [TypeError] at its first [+], after
    [fname.index(".")], and [get_prefixed] raises it at once. *)
Definition joiner (loc : string) (fname : string) (captured : option string)
    : Result string :=
  if (loc =? "end")%string then
    match captured with
    | Some suffix => get_suffixed fname suffix
    | None =>
        match index fname "." with
        | Ret _ => Raise TypeError
        | Raise e => Raise e
        end
    end
  else
    match captured with
    | Some prefix => Ret (get_prefixed fname prefix)
    | None => Raise TypeError
    end.

(** The loop of [add_from_file] over the filenames; [change_list] is
    the dict filled so far. *)
Fixpoint add_from_file_change_list (self : t) (pattern loc : string)
    (names : list string) (change_list : dict) : M FS dict :=
  match names with
  | [] => ret change_list
  | filename :: rest =>
      if negb (endswith filename ".txt") then
        print ("Skipping " ++ filename) ;;
        add_from_file_change_list self pattern loc rest change_list
      else
        txt <- open_read (join_with_dir self filename) ;;
        search_result <- lift (re_search pattern txt) ;;
        match search_result with
        | Some m =>
            captured <- lift (group1 m) ;;
            new_name <- lift (joiner loc filename captured) ;;
            add_from_file_change_list self pattern loc rest
              (set change_list filename new_name)
        | None =>
            add_from_file_change_list self pattern loc rest change_list
        end
  end.

(** [add_from_file(pattern, loc)] *)
Definition add_from_file (self : t) (pattern loc : string) : M FS unit :=
  names <- filenames self ;;
  change_list <- add_from_file_change_list self pattern loc names [] ;;
  rename_these self change_list true.


(** [replace_these(ammendments)]: one [replace] for each entry, in
    order. *)
Definition replace_these (self : t) (ammendments : dict) : M FS unit :=
  for_each (fun '(change_this, to_this) => replace self change_this to_this)
           (items ammendments).

(** [rename_with_enum(basename, display)] *)
Definition rename_with_enum (self : t) (basename : string) (display : bool)
    : M FS unit :=
  names <- filenames self ;;
  change_list <- lift (rename_with_enum_change_list basename names) ;;
  rename_these self change_list display.

End Methods.

End FileReNamer.

(* ================================================================= *)
(** ** The vocabulary of the specification *)

(** The specification describes the planner by rules and the executor
    by per-entry outcomes. The code has neither type: a rule is the
    choice of a method, an outcome is the branch that [rename] takes.
    The definitions of this module follow the specification's words and
    are related to the code by the theorems below. *)
Module Spec.
Import PyStr FileReNamer.

Inductive RenameOutcome : Type :=
| Applied
| SkippedMissingSource
| SkippedTargetExists.

Inductive RenameRule : Type :=
| Replace (from to : string)
| Prefix (text : string)
| Suffix (text : string)
| Enumerate (start : Z) (separator position : string)
| ContentMatch (pattern position : string).


Section Executor.
Context {FS : Type} `{FileSystem FS}.
Variable re_search : Regex.

(** The plan of a rule over a snapshot: the change list of the method
    that implements the rule. *)
Definition plan (self : t) (rule : RenameRule) (snapshot : list string)
    : M FS dict :=
  match rule with
  | Replace from to => ret (replace_change_list from to snapshot)
  | Prefix text => ret (add_prefix_change_list text snapshot)
  | Suffix text => lift (add_suffix_change_list text snapshot)
  | Enumerate start separator position =>
      ret (add_enum_change_list start position separator snapshot)
  | ContentMatch pattern position =>
      add_from_file_change_list re_search self pattern position snapshot []
  end.

(** The outcome of one entry, from the two checks made on the state
    [st] in which the entry is reached. *)
Definition outcome_at (st : FS) (old_path new_path : string) : RenameOutcome :=
  if negb (fs_exists st old_path) then SkippedMissingSource
  else if fs_exists st new_path then SkippedTargetExists
  else Applied.

(** What an outcome means for the file system: a skip leaves it as it
    is, an applied entry renames. [None] stands for an [os.rename]
    that raised. *)
Definition outcome_state (st : FS) (o : RenameOutcome)
    (old_path new_path : string) : option FS :=
  match o with
  | Applied => fs_rename st old_path new_path
  | SkippedMissingSource | SkippedTargetExists => Some st
  end.

(** What the user sees of an outcome. *)
Definition outcome_events (o : RenameOutcome) (old_path new_path : string)
    : list event :=
  match o with
  | Applied => [EvRename old_path new_path]
  | SkippedMissingSource =>
      [EvPrint ("ERROR: " ++ dquote ++ old_path ++ dquote
                ++ " does not exist. Skipping...")]
  | SkippedTargetExists =>
      [EvPrint ("ERROR: " ++ dquote ++ new_path ++ dquote
                ++ " already exists. Skipping...")]
  end.

(** How the executor ends: the outcomes of the entries it completed,
    the state it leaves, and the entry at which [os.rename] raised, if
    one did. *)
Record Run : Type := mkRun {
  outcomes : list (string * string * RenameOutcome);
  final : FS;
  failed : option (string * string)
}.

(** The executor on a confirmed plan: the entries in order, each judged
    on the state left by the entries before it. An [os.rename] that
    raises ends the run there: the entries after it are not reached and
    the renames before it stay. *)
Fixpoint execute (self : t) (entries : list (string * string)) (st : FS)
    : Run :=
  match entries with
  | [] => mkRun [] st None
  | (old, new) :: rest =>
      let old_path := join_with_dir self old in
      let new_path := join_with_dir self new in
      let o := outcome_at st old_path new_path in
      match outcome_state st o old_path new_path with
      | Some st' =>
          let run := execute self rest st' in
          mkRun ((old, new, o) :: outcomes run) (final run) (failed run)
      | None => mkRun [] st (Some (old, new))
      end
  end.

(** What a run returns to the caller of [rename_these]. *)
Definition result (run : Run) : Result unit :=
  match failed run with
  | None => Ret tt
  | Some _ => Raise OSError
  end.

(** The events of a run: those of its outcomes, then the call that
    raised. *)
Definition report (self : t) (run : Run) : list event :=
  (flat_map (fun '(old, new, o) =>
               outcome_events o (join_with_dir self old)
                                (join_with_dir self new))
            (outcomes run)
   ++ match failed run with
      | Some (old, new) =>
          [EvRename (join_with_dir self old) (join_with_dir self new)]
      | None => []
      end)%list.

(** The events of [rename_these] up to and including its prompt. *)
Definition preview (files_to_change : dict) (display : bool) : list event :=
  ((if display then
      EvPrint (dashes ++ newline ++ "CHANGES:" ++ newline ++ dashes)
      :: map (fun '(old, new) => EvPrint (old ++ tab ++ "->" ++ tab ++ new))
             (items files_to_change)
    else [])
   ++ [EvInput "Make these changes? (y/n): "])%list.

End Executor.

Arguments Run FS : clear implicits.
Arguments mkRun {FS} outcomes final failed.
Arguments outcomes {FS} r.
Arguments final {FS} r.
Arguments failed {FS} r.

End Spec.

(* ================================================================= *)
(** ** A file system to run the model on *)

(** A tree of folders and files, kept as the list of the paths that
    exist, each a list of names from the root, with what is there. The
    root folder always exists, and relative paths start at the root
    (the working directory of the process). *)
Module MemFS.
Import PyStr.

Inductive node : Type :=
| File (text : string)
| Folder.

Definition store : Type := list (list string * node).

(** The names of a path string, split at ["/"]; [current] is the name
    being read. *)
Fixpoint components_from (current path : string) : list string :=
  match path with
  | EmptyString => [current]
  | String c rest =>
      if (c =? "/")%char then current :: components_from "" rest
      else components_from (current ++ String c "") rest
  end.

Definition components (path : string) : list string :=
  components_from "" path.

Definition same_path (p q : list string) : bool :=
  if list_eq_dec string_dec p q then true else false.

Definition lookup (st : store) (p : list string) : option node :=
  option_map snd (List.find (fun '(q, _) => same_path q p) st).

Definition is_folder (st : store) (p : list string) : bool :=
  match p with
  | [] => true
  | _ => match lookup st p with
         | Some Folder => true
         | _ => false
         end
  end.

(** Path resolution from the place [here]: every name is looked up in
    a folder that exists; empty names and ["."] stay, [".."] goes
    up. *)
Fixpoint walk (st : store) (here names : list string)
    : option (list string) :=
  match names with
  | [] => Some here
  | name :: rest =>
      if is_folder st here then
        if (name =? "")%string || (name =? ".")%string then walk st here rest
        else if (name =? "..")%string then walk st (removelast here) rest
        else walk st (here ++ [name]) rest
      else None
  end.

Definition resolve (st : store) (path : string) : option (list string) :=
  if (path =? "")%string then None else walk st [] (components path).

Definition exists_ (st : store) (path : string) : bool :=
  match resolve st path with
  | Some [] => true
  | Some p => match lookup st p with
              | Some _ => true
              | None => false
              end
  | None => false
  end.

Definition is_prefix (p q : list string) : bool :=
  same_path p (firstn (List.length p) q).

Definition has_children (st : store) (p : list string) : bool :=
  existsb (fun '(q, _) => is_prefix p q && negb (same_path p q)) st.

Definition without (st : store) (p : list string) : store :=
  filter (fun '(q, _) => negb (same_path q p)) st.

(** [rename(2)]: the source must exist and the parent of the target
    must be a folder. A file replaces a file and a folder an empty
    folder; a folder does not move into itself. What lies below the
    source moves with it. *)
Definition rename_ (st : store) (old_path new_path : string) : option store :=
  match resolve st old_path, resolve st new_path with
  | Some (a :: p), Some (b :: q) =>
      let source := a :: p in
      let target := b :: q in
      match lookup st source with
      | None => None
      | Some moved =>
          if same_path source target then Some st
          else if is_prefix source target then None
          else
            let cleared :=
              match lookup st target, moved with
              | None, _ => Some st
              | Some (File _), File _ => Some (without st target)
              | Some Folder, Folder =>
                  if has_children st target then None
                  else Some (without st target)
              | _, _ => None
              end in
            option_map
              (map (fun '(r, n) =>
                      if is_prefix source r
                      then ((target ++ skipn (List.length source) r)%list, n)
                      else (r, n)))
              cleared
      end
  | _, _ => None
  end.

(** [os.listdir]: the names directly inside a folder, in the order of
    the store. *)
Definition listdir_ (st : store) (directory : string) : list string :=
  match resolve st directory with
  | Some p =>
      if is_folder st p then
        flat_map (fun '(q, _) =>
                    if is_prefix p q
                       && (List.length q =? S (List.length p))%nat
                    then [last q ""] else [])
                 st
      else []
  | None => []
  end.

Definition read_ (st : store) (path : string) : Result string :=
  match resolve st path with
  | Some p => match lookup st p with
              | Some (File txt) => Ret txt
              | _ => Raise OSError
              end
  | None => Raise OSError
  end.

#[global] Instance file_system : FileSystem store := {
  fs_exists := exists_;
  fs_rename := rename_;
  fs_listdir := listdir_;
  fs_read := read_
}.

(** A regular-expression engine is outside the model; this stand-in
    reports the whole text as the captured group when it contains
    [pattern]. *)
Definition literal_search : Regex :=
  fun pattern txt =>
    Ret (if contains txt pattern then Some (Group1 (Some txt)) else None).

(** A folder [d] with two files, for the examples. *)
Definition folder : FileReNamer.t := FileReNamer.make "d".
Definition two_files : store :=
  [(["d"], Folder);
   (["d"; "report.csv"], File "r");
   (["d"; "summary.csv"], File "s")].

Definition with_notes : store :=
  (two_files ++ [(["d"; "notes.txt"], File "zip 12345")])%list.
Definition underscore_files : store :=
  [(["d"], Folder);
   (["d"; "a_b.txt"], File "");
   (["d"; "c.txt"], File "")].

End MemFS.

(* ================================================================= *)
(** ** The model at work *)

Section Examples.
Import FileReNamer Spec MemFS.

Example replace_every_occurrence :
  PyStr.replace "aXbXXc" "X" "__" = "a__b____c".
Proof. reflexivity. Qed.

Example replace_is_not_overlapping :
  PyStr.replace "aaaaa" "aa" "b" = "bba".
Proof. reflexivity. Qed.

Example replace_empty_pattern :
  PyStr.replace "abc" "" "-" = "-a-b-c-".
Proof. reflexivity. Qed.

Example endswith_examples :
  PyStr.endswith "report.csv" ".csv" = true /\
  PyStr.endswith "report.csv" "" = true /\
  PyStr.endswith "csv" "report.csv" = false.
Proof. repeat split. Qed.

Example str_examples :
  PyStr.str 0 = "0" /\ PyStr.str 42 = "42" /\ PyStr.str (-7) = "-7".
Proof. repeat split. Qed.

Example join_with_dir_examples :
  join_with_dir folder "report.csv" = "d/report.csv" /\
  join_with_dir (make "d/") "report.csv" = "d/report.csv" /\
  join_with_dir folder "/tmp/x" = "/tmp/x".
Proof. repeat split. Qed.

(** The scenario of the specification: [Suffix("_v2")] over
    [report.csv] and [summary.csv], confirmed. *)
Example add_suffix_scenario :
  add_suffix_change_list "_v2" ["report.csv"; "summary.csv"] =
  Ret [("report.csv", "report_v2.csv"); ("summary.csv", "summary_v2.csv")] /\
  fs_listdir
    (fs (snd (add_suffix folder "_v2" true (mkWorld two_files ["y"] []))))
    "d"
  = ["report_v2.csv"; "summary_v2.csv"].
Proof. split; reflexivity. Qed.

(** Two confirmed [add_prefix] cycles: the second one shows an empty
    list of changes and renames nothing. *)
Example add_prefix_two_cycles :
  let w1 := snd (add_prefix folder "p_" true (mkWorld two_files ["y"; "y"] [])) in
  fs_listdir (fs w1) "d" = ["p_report.csv"; "p_summary.csv"] /\
  add_prefix folder "p_" true (mkWorld (fs w1) (stdin w1) []) =
  (Ret tt,
   mkWorld (fs w1) []
     [EvPrint (dashes ++ newline ++ "CHANGES:" ++ newline ++ dashes);
      EvInput "Make these changes? (y/n): "]).
Proof. split; reflexivity. Qed.

(** A file created at the target between planning and execution makes
    the entry a [SkippedTargetExists]. *)
Example target_created_after_planning :
  outcomes (execute folder [("report.csv", "final.csv")]
              (two_files ++ [(["d"; "final.csv"], File "late")])%list)
  = [("report.csv", "final.csv", SkippedTargetExists)].
Proof. reflexivity. Qed.

(** The file system at work: names are resolved through folders that
    exist, and a rename into a folder that is missing fails. *)
Example file_system_examples :
  fs_exists two_files "d" = true /\
  fs_exists two_files "d/" = true /\
  fs_exists two_files "d/./report.csv" = true /\
  fs_exists two_files "d/report.csv/" = false /\
  fs_exists two_files "d/sub/../report.csv" = false /\
  fs_exists two_files "" = false /\
  fs_listdir two_files "d" = ["report.csv"; "summary.csv"] /\
  fs_rename two_files "d/report.csv" "d/sub/report.csv" = None /\
  fs_rename two_files "d/report.csv" "d/./final.csv" =
  Some [(["d"], Folder); (["d"; "final.csv"], File "r");
        (["d"; "summary.csv"], File "s")] /\
  fs_read two_files "d/report.csv" = Ret "r" /\
  fs_read two_files "d" = Raise OSError.
Proof. repeat split. Qed.

End Examples.

(* ================================================================= *)
(** ** Facts about strings *)

Section StringFacts.

Lemma append_nil_r (s : string) : s ++ "" = s.
Proof. induction s as [|c s IH]; simpl; [reflexivity | now rewrite IH]. Qed.

Lemma append_assoc (a b c : string) : (a ++ b) ++ c = a ++ (b ++ c).
Proof. induction a as [|x a IH]; simpl; [reflexivity | now rewrite IH]. Qed.

Lemma length_append (a b : string) :
  String.length (a ++ b) = String.length a + String.length b.
Proof. induction a as [|x a IH]; simpl; [reflexivity | now rewrite IH]. Qed.

Lemma append_inv_head (a b c : string) : a ++ b = a ++ c -> b = c.
Proof.
  induction a as [|x a IH]; simpl; intros E; [assumption|].
  injection E as E. auto.
Qed.

(** Two decompositions of one string whose heads have the same length
    coincide. *)
Lemma append_eq_length (a b c d : string) :
  a ++ b = c ++ d -> String.length a = String.length c -> a = c /\ b = d.
Proof.
  revert c; induction a as [|x a IH]; intros [|y c]; simpl; intros E L;
    try discriminate; [now split|].
  injection E as -> E. injection L as L.
  destruct (IH c E L) as [-> ->]. now split.
Qed.

Lemma length_zero_empty (s : string) : String.length s = 0 -> s = "".
Proof. destruct s; simpl; [reflexivity | discriminate]. Qed.

Lemma prefix_empty (s : string) : String.prefix "" s = true.
Proof. destruct s; reflexivity. Qed.

Lemma prefix_append (p t : string) : String.prefix p (p ++ t) = true.
Proof.
  induction p as [|c p IH]; simpl; [apply prefix_empty|].
  destruct (ascii_dec c c) as [_|N]; [assumption | now elim N].
Qed.

Lemma prefix_split (p s : string) :
  String.prefix p s = true -> exists t, s = p ++ t.
Proof.
  revert s; induction p as [|c p IH]; intros s H.
  - now exists s.
  - destruct s as [|d s]; simpl in H; [discriminate|].
    destruct (ascii_dec c d) as [->|_]; [|discriminate].
    destruct (IH s H) as [t ->]. now exists t.
Qed.

Lemma prefix_iff (p s : string) :
  String.prefix p s = true <-> exists t, s = p ++ t.
Proof.
  split; [apply prefix_split | intros [t ->]; apply prefix_append].
Qed.

Lemma prefix_of_empty (p : string) : String.prefix p "" = true -> p = "".
Proof. destruct p; [reflexivity | discriminate]. Qed.

End StringFacts.

Module PyStrFacts.
Import PyStr.

Lemma startswith_iff (s p : string) :
  startswith s p = true <-> exists t, s = p ++ t.
Proof. apply prefix_iff. Qed.

Lemma contains_iff (s sub : string) :
  contains s sub = true <-> exists pre post, s = pre ++ sub ++ post.
Proof.
  split.
  - induction s as [|c s IH]; cbn [contains]; intros H.
    + rewrite orb_false_r in H. apply prefix_split in H as [t E].
      now exists "", t.
    + apply orb_true_iff in H as [H|H].
      * apply prefix_split in H as [t E]. now exists "", t.
      * destruct (IH H) as (pre & post & ->). now exists (String c pre), post.
  - intros (pre & post & ->).
    induction pre as [|c pre IH].
    + change ("" ++ sub ++ post) with (sub ++ post).
      destruct (sub ++ post) eqn:E; cbn [contains];
        rewrite <- E, prefix_append; reflexivity.
    + change (String c pre ++ sub ++ post) with (String c (pre ++ sub ++ post)).
      cbn [contains]. rewrite IH. apply orb_true_r.
Qed.

Lemma contains_empty (s : string) : contains s "" = true.
Proof. destruct s; simpl; reflexivity. Qed.

Lemma contains_refl (s : string) : contains s s = true.
Proof.
  apply contains_iff. exists "", "". simpl. now rewrite append_nil_r.
Qed.

Lemma contains_trans (a b c : string) :
  contains a b = true -> contains b c = true -> contains a c = true.
Proof.
  rewrite !contains_iff.
  intros (p1 & q1 & ->) (p2 & q2 & ->).
  exists (p1 ++ p2), (q2 ++ q1). now rewrite !append_assoc.
Qed.

Lemma contains_cons (c : ascii) (s sub : string) :
  contains (String c s) sub = String.prefix sub (String c s) || contains s sub.
Proof. reflexivity. Qed.

Lemma endswith_iff (s suf : string) :
  endswith s suf = true <-> exists pre, s = pre ++ suf.
Proof.
  split.
  - induction s as [|c s IH]; cbn [endswith]; intros H.
    + rewrite orb_false_r in H. apply String.eqb_eq in H as <-. now exists "".
    + apply orb_true_iff in H as [H|H].
      * apply String.eqb_eq in H as <-. now exists "".
      * destruct (IH H) as [pre ->]. now exists (String c pre).
  - intros [pre ->]. induction pre as [|c pre IH].
    + change ("" ++ suf) with suf.
      destruct suf; cbn [endswith]; now rewrite String.eqb_refl.
    + change (String c pre ++ suf) with (String c (pre ++ suf)).
      cbn [endswith]. rewrite IH. apply orb_true_r.
Qed.

Lemma slice_to_from (s : string) (n : nat) : slice_to s n ++ slice_from s n = s.
Proof.
  revert n; induction s as [|c s IH]; intros [|n]; simpl; try reflexivity.
  now rewrite IH.
Qed.

Lemma slice_to_append (a b : string) : slice_to (a ++ b) (String.length a) = a.
Proof.
  induction a as [|c a IH]; simpl; [now destruct b | now rewrite IH].
Qed.

Lemma slice_from_append (a b : string) :
  slice_from (a ++ b) (String.length a) = b.
Proof. induction a as [|c a IH]; simpl; [now destruct b | assumption]. Qed.

Lemma find_none_iff (s sub : string) :
  find s sub = None <-> contains s sub = false.
Proof.
  induction s as [|c s IH]; cbn [find contains].
  - destruct (String.prefix sub ""); simpl; split; congruence.
  - destruct (String.prefix sub (String c s)); simpl; [split; congruence|].
    rewrite <- IH. destruct (find s sub); simpl; split; congruence.
Qed.

(** [find] returns the length of the shortest text before an occurrence. *)
Lemma find_some_split (s sub : string) (i : nat) :
  find s sub = Some i ->
  exists post, s = slice_to s i ++ sub ++ post /\
               String.length (slice_to s i) = i /\
               forall pre' post', s = pre' ++ sub ++ post' ->
                                  i <= String.length pre'.
Proof.
  revert i; induction s as [|c s IH]; cbn [find]; intros i H.
  - destruct (String.prefix sub "") eqn:P; [|discriminate].
    injection H as <-. apply prefix_split in P as [t E].
    exists t. repeat split; [assumption | intros; lia].
  - destruct (String.prefix sub (String c s)) eqn:P.
    + injection H as <-. apply prefix_split in P as [t E].
      exists t. repeat split; [assumption | intros; lia].
    + destruct (find s sub) as [j|] eqn:F; [|discriminate].
      injection H as <-. destruct (IH j eq_refl) as (post & E & L & Min).
      exists post. simpl. split; [now rewrite <- E|].
      split; [now rewrite L|].
      intros [|d pre'] post' E'; simpl in E'.
      * rewrite E' in P. now rewrite prefix_append in P.
      * injection E' as _ E'. simpl. apply Min in E'. lia.
Qed.

Lemma str_nonempty (z : Z) : str z <> "".
Proof.
  unfold str. destruct z as [|p|p]; simpl; try discriminate.
  unfold NilZero.string_of_uint.
  destruct (Pos.to_uint p); simpl; discriminate.
Qed.

End PyStrFacts.

(* ================================================================= *)
(** ** Facts about [str.replace] *)

Module ReplaceFacts.
Import PyStr PyStrFacts.

Lemma replace_scan_skip (old new : string) (k : nat) (s : string) :
  replace_scan old new k s = replace_scan old new 0 (slice_from s k).
Proof.
  revert k; induction s as [|c s IH]; intros [|k]; try reflexivity.
  cbn [slice_from]. rewrite <- IH. reflexivity.
Qed.

Section Scan.
Variables old new : string.
Hypothesis old_nonempty : old <> "".

Lemma replace_scan_hit (t : string) :
  replace_scan old new 0 (old ++ t) = new ++ replace_scan old new 0 t.
Proof.
  destruct old as [|a o]; [now elim old_nonempty|].
  change (String a o ++ t) with (String a (o ++ t)).
  cbn [replace_scan].
  change (String a (o ++ t)) with (String a o ++ t).
  rewrite prefix_append.
  cbn [String.length]. rewrite Nat.sub_1_r, Nat.pred_succ.
  rewrite replace_scan_skip, slice_from_append. reflexivity.
Qed.

Lemma replace_scan_copy (c : ascii) (t : string) :
  String.prefix old (String c t) = false ->
  replace_scan old new 0 (String c t) = String c (replace_scan old new 0 t).
Proof. intros P. cbn [replace_scan]. now rewrite P. Qed.

Lemma replace_scan_Replaced (s : string) :
  Replaced old new s (replace_scan old new 0 s).
Proof.
  remember (String.length s) as n eqn:L.
  revert s L; induction n as [n IH] using lt_wf_ind; intros s L.
  destruct s as [|c s]; [constructor|].
  destruct (String.prefix old (String c s)) eqn:P.
  - apply prefix_split in P as [t E]. rewrite E, replace_scan_hit.
    constructor. apply (IH (String.length t)); [|reflexivity].
    rewrite L, E, length_append.
    destruct old; [now elim old_nonempty | simpl; lia].
  - rewrite (replace_scan_copy _ _ P). constructor; [assumption|].
    apply (IH (String.length s)); [|reflexivity]. rewrite L. simpl; lia.
Qed.

Lemma Replaced_replace_scan (s r : string) :
  Replaced old new s r -> r = replace_scan old new 0 s.
Proof.
  induction 1 as [|t r _ IH|c t r P _ IH].
  - reflexivity.
  - now rewrite replace_scan_hit, IH.
  - now rewrite (replace_scan_copy _ _ P), IH.
Qed.

Lemma Replaced_iff (s r : string) :
  Replaced old new s r <-> r = replace s old new.
Proof.
  assert (replace s old new = replace_scan old new 0 s) as ->
    by (unfold replace; destruct old; [now elim old_nonempty | reflexivity]).
  split; [apply Replaced_replace_scan | intros ->; apply replace_scan_Replaced].
Qed.

(** A string without an occurrence is left as it is. *)
Lemma Replaced_absent (s r : string) :
  Replaced old new s r -> contains s old = false -> r = s.
Proof.
  induction 1 as [|t r _ _|c t r P _ IH]; intros C.
  - reflexivity.
  - exfalso. assert (contains (old ++ t) old = true) as C'
      by (apply contains_iff; now exists "", t).
    congruence.
  - rewrite contains_cons, P in C. simpl in C. now rewrite IH.
Qed.

(** A string with an occurrence receives at least one copy of [new]. *)
Lemma Replaced_present (s r : string) :
  Replaced old new s r -> contains s old = true ->
  exists pre post, r = pre ++ new ++ post.
Proof.
  induction 1 as [|t r _ _|c t r P _ IH]; intros C.
  - cbn [contains] in C. rewrite orb_false_r in C.
    apply prefix_of_empty in C. now elim old_nonempty.
  - now exists "", r.
  - rewrite contains_cons, P in C. simpl in C.
    destruct (IH C) as (pre & post & ->). now exists (String c pre), post.
Qed.

Lemma Replaced_length_le (s r : string) :
  String.length new <= String.length old ->
  Replaced old new s r -> String.length r <= String.length s.
Proof.
  intros L. induction 1; rewrite ?length_append; simpl; lia.
Qed.

Lemma Replaced_length_ge (s r : string) :
  String.length old <= String.length new ->
  Replaced old new s r -> String.length s <= String.length r.
Proof.
  intros L. induction 1; rewrite ?length_append; simpl; lia.
Qed.

Lemma Replaced_length_lt (s r : string) :
  String.length new < String.length old ->
  Replaced old new s r -> contains s old = true ->
  String.length r < String.length s.
Proof.
  intros L. induction 1 as [|t r R _|c t r P _ IH]; intros C.
  - cbn [contains] in C. rewrite orb_false_r in C.
    apply prefix_of_empty in C. now elim old_nonempty.
  - apply Replaced_length_le in R; [|lia]. rewrite !length_append. lia.
  - rewrite contains_cons, P in C. simpl in *. apply IH in C. lia.
Qed.

Lemma Replaced_length_gt (s r : string) :
  String.length old < String.length new ->
  Replaced old new s r -> contains s old = true ->
  String.length s < String.length r.
Proof.
  intros L. induction 1 as [|t r R _|c t r P _ IH]; intros C.
  - cbn [contains] in C. rewrite orb_false_r in C.
    apply prefix_of_empty in C. now elim old_nonempty.
  - apply Replaced_length_ge in R; [|lia]. rewrite !length_append. lia.
  - rewrite contains_cons, P in C. simpl in *. apply IH in C. lia.
Qed.

Lemma Replaced_same_length_fixed (s r : string) :
  String.length old = String.length new ->
  Replaced old new s r -> r = s -> contains s old = true -> new = old.
Proof.
  intros L. induction 1 as [|t r _ _|c t r P _ IH]; intros E C.
  - cbn [contains] in C. rewrite orb_false_r in C.
    apply prefix_of_empty in C. now elim old_nonempty.
  - apply append_eq_length in E; [tauto | now symmetry].
  - rewrite contains_cons, P in C. simpl in C. injection E as E. auto.
Qed.

(** Replacing an occurring [old] by a different [new] changes the
    string. *)
Lemma Replaced_changes (s r : string) :
  old <> new -> Replaced old new s r -> contains s old = true -> r <> s.
Proof.
  intros N R C E.
  destruct (Nat.lt_trichotomy (String.length old) (String.length new))
    as [L|[L|L]].
  - pose proof (Replaced_length_gt _ _ L R C). subst r. lia.
  - apply N. symmetry. now apply (Replaced_same_length_fixed s r).
  - pose proof (Replaced_length_lt _ _ L R C). subst r. lia.
Qed.

End Scan.

Lemma replace_empty_length (new s : string) :
  String.length (replace_empty new s) =
  String.length s + (String.length s + 1) * String.length new.
Proof.
  induction s as [|c s IH]; cbn [replace_empty String.length].
  - lia.
  - rewrite length_append. cbn [String.length]. rewrite IH. lia.
Qed.

Lemma replace_empty_starts (new s : string) :
  exists post, replace_empty new s = new ++ post.
Proof.
  destruct s as [|c s]; cbn [replace_empty].
  - exists "". now rewrite append_nil_r.
  - now eexists.
Qed.

(** [replace] on a string that does not contain [old]. *)
Lemma replace_absent (s old new : string) :
  contains s old = false -> replace s old new = s.
Proof.
  intros C. destruct old as [|a o] eqn:E.
  - now rewrite contains_empty in C.
  - rewrite <- E in *. assert (old <> "") as N by (rewrite E; discriminate).
    apply (Replaced_absent old new); [|assumption].
    now apply Replaced_iff.
Qed.

(** [replace] on a string that contains [old]: the result contains [new]. *)
Lemma replace_present (s old new : string) :
  contains s old = true -> contains (replace s old new) new = true.
Proof.
  intros C. apply contains_iff. destruct old as [|a o] eqn:E.
  - cbn [replace]. destruct (replace_empty_starts new s) as [post ->].
    now exists "", post.
  - rewrite <- E in *. assert (old <> "") as N by (rewrite E; discriminate).
    apply (Replaced_present old new N s); [|assumption].
    now apply Replaced_iff.
Qed.

(** [replace] with a different [new] on a string that contains [old]. *)
Lemma replace_changes (s old new : string) :
  old <> new -> contains s old = true -> replace s old new <> s.
Proof.
  intros D C. destruct old as [|a o] eqn:E.
  - cbn [replace]. intros F.
    pose proof (replace_empty_length new s) as L. rewrite F in L.
    destruct new; [now elim D | simpl in L; lia].
  - rewrite <- E in *. assert (old <> "") as N by (rewrite E; discriminate).
    apply (Replaced_changes old new N); [assumption| |assumption].
    now apply Replaced_iff.
Qed.

End ReplaceFacts.

(* ================================================================= *)
(** ** Facts about dictionaries *)

Module PyDictFacts.

Lemma get_set_same (d : dict) (k v : string) : get (set d k v) k = Some v.
Proof.
  induction d as [|[k' v'] d IH]; cbn [set get].
  - now rewrite String.eqb_refl.
  - destruct (k' =? k)%string eqn:E; cbn [get]; rewrite E; auto.
Qed.

Lemma get_set_other (d : dict) (k v k0 : string) :
  k <> k0 -> get (set d k v) k0 = get d k0.
Proof.
  intros N. induction d as [|[k' v'] d IH]; cbn [set get].
  - apply String.eqb_neq in N. now rewrite N.
  - destruct (k' =? k)%string eqn:E; cbn [get].
    + apply String.eqb_eq in E as ->.
      apply String.eqb_neq in N. now rewrite N.
    + now rewrite IH.
Qed.

Lemma get_set (d : dict) (k v k0 : string) :
  get (set d k v) k0 = if (k =? k0)%string then Some v else get d k0.
Proof.
  destruct (k =? k0)%string eqn:E.
  - apply String.eqb_eq in E as ->. apply get_set_same.
  - apply String.eqb_neq in E. now apply get_set_other.
Qed.

Lemma In_set (d : dict) (k v k0 v0 : string) :
  In (k0, v0) (set d k v) -> (k0, v0) = (k, v) \/ In (k0, v0) d.
Proof.
  induction d as [|[k' v'] d IH]; cbn [set]; intros I.
  - destruct I as [<-|[]]. now left.
  - destruct (k' =? k)%string eqn:E.
    + destruct I as [<-|I]; [|right; now right].
      apply String.eqb_eq in E as ->. now left.
    + destruct I as [<-|I]; [right; now left|].
      destruct (IH I); [now left | right; now right].
Qed.

Lemma get_In (d : dict) (k v : string) : get d k = Some v -> In (k, v) d.
Proof.
  induction d as [|[k' v'] d IH]; cbn [get]; [discriminate|].
  destruct (k' =? k)%string eqn:E; intros G.
  - apply String.eqb_eq in E as ->. injection G as ->. now left.
  - right. auto.
Qed.

Lemma get_None (d : dict) (k : string) : get d k = None <-> ~ In k (keys d).
Proof.
  induction d as [|[k' v'] d IH]; cbn [get keys map fst In]; [tauto|].
  destruct (k' =? k)%string eqn:E.
  - apply String.eqb_eq in E as ->. split; [discriminate | tauto].
  - apply String.eqb_neq in E. unfold keys in IH. rewrite IH. tauto.
Qed.

Lemma get_Some_key (d : dict) (k : string) :
  In k (keys d) <-> exists v, get d k = Some v.
Proof.
  destruct (get d k) as [v|] eqn:G.
  - split; [now exists v | intros _].
    apply get_In in G. now apply (in_map fst) in G.
  - split; [now apply get_None in G | intros [v V]; discriminate].
Qed.

(** A fresh key goes to the end. *)
Lemma set_fresh (d : dict) (k v : string) :
  ~ In k (keys d) -> set d k v = (d ++ [(k, v)])%list.
Proof.
  induction d as [|[k' v'] d IH]; cbn [set keys map fst In app]; intros N.
  - reflexivity.
  - destruct (k' =? k)%string eqn:E.
    + apply String.eqb_eq in E. tauto.
    + rewrite IH; [reflexivity | tauto].
Qed.

Section Comprehension.
Context {A : Type}.
Variables (cond : A -> bool) (key value : A -> string).

Let step (d : dict) (x : A) : dict :=
  if cond x then set d (key x) (value x) else d.

(** Every entry of a comprehension comes from an element that passed
    the condition. *)
Lemma fold_comprehension_In (xs : list A) (d : dict) (k v : string) :
  In (k, v) (fold_left step xs d) ->
  In (k, v) d \/
  exists x, In x xs /\ cond x = true /\ k = key x /\ v = value x.
Proof.
  revert d; induction xs as [|x xs IH]; cbn [fold_left]; intros d I.
  - now left.
  - apply IH in I as [I|(y & Y & C & K & V)].
    + unfold step in I. destruct (cond x) eqn:C; [|now left].
      apply In_set in I as [E|I]; [|now left].
      injection E as -> ->. right. exists x. cbn [In]. tauto.
    + right. exists y. cbn [In]. tauto.
Qed.

Lemma comprehension_In (xs : list A) (k v : string) :
  In (k, v) (items (comprehension xs cond key value)) ->
  exists x, In x xs /\ cond x = true /\ k = key x /\ v = value x.
Proof.
  intros I. apply fold_comprehension_In in I as [[]|I]. exact I.
Qed.

(** When the keys that pass the condition are distinct, the entries
    are those elements, in order. *)
Lemma fold_comprehension_fresh (xs : list A) (d : dict) :
  NoDup (keys d ++ map key (filter cond xs)) ->
  fold_left step xs d =
  (d ++ map (fun x => (key x, value x)) (filter cond xs))%list.
Proof.
  revert d; induction xs as [|x xs IH]; cbn [fold_left filter]; intros d N.
  - now rewrite app_nil_r.
  - unfold step at 2. destruct (cond x) eqn:C.
    + cbn [map] in *. rewrite set_fresh.
      * rewrite IH; [now rewrite <- app_assoc|].
        unfold keys. rewrite map_app. cbn [map fst].
        now rewrite <- app_assoc.
      * apply NoDup_remove_2 in N. intros I. apply N.
        apply in_or_app. now left.
    + now apply IH.
Qed.

Lemma comprehension_fresh (xs : list A) :
  NoDup (map key (filter cond xs)) ->
  items (comprehension xs cond key value) =
  map (fun x => (key x, value x)) (filter cond xs).
Proof. intros N. apply (fold_comprehension_fresh xs []). exact N. Qed.

End Comprehension.

Section OverKeys.
(** Comprehensions whose elements are the keys themselves. *)
Variables (cond : string -> bool) (value : string -> string).

Lemma fold_get_over_keys (xs : list string) (d : dict) (k : string) :
  get (fold_left (fun d x => if cond x then set d x (value x) else d) xs d) k =
  if existsb (String.eqb k) xs && cond k then Some (value k) else get d k.
Proof.
  revert d; induction xs as [|x xs IH]; cbn [fold_left existsb]; intros d.
  - reflexivity.
  - rewrite IH. destruct (k =? x)%string eqn:E.
    + apply String.eqb_eq in E as ->. cbn [orb].
      destruct (cond x); [|now rewrite andb_false_r].
      rewrite get_set_same. now destruct (existsb (String.eqb x) xs).
    + cbn [orb]. destruct (existsb (String.eqb k) xs && cond k); [reflexivity|].
      destruct (cond x); [|reflexivity].
      apply get_set_other. apply String.eqb_neq in E. congruence.
Qed.

Lemma get_over_keys (xs : list string) (k v : string) :
  get (comprehension xs cond (fun x => x) value) k = Some v <->
  In k xs /\ cond k = true /\ v = value k.
Proof.
  unfold comprehension. rewrite fold_get_over_keys. cbn [get].
  destruct (existsb (String.eqb k) xs) eqn:E; cbn [andb].
  - apply existsb_exists in E as (y & Y & E).
    apply String.eqb_eq in E as <-.
    destruct (cond k); split; intros G; try discriminate.
    + injection G as <-. tauto.
    + destruct G as (_ & _ & ->). reflexivity.
    + destruct G as (_ & G & _). discriminate.
  - split; [discriminate|]. intros (I & _). exfalso.
    assert (existsb (String.eqb k) xs = true) as E'; [|congruence].
    apply existsb_exists. exists k. now rewrite String.eqb_refl.
Qed.

Lemma keys_over_keys (xs : list string) (k : string) :
  In k (keys (comprehension xs cond (fun x => x) value)) <->
  In k xs /\ cond k = true.
Proof.
  rewrite get_Some_key. split.
  - intros [v G]. apply get_over_keys in G. tauto.
  - intros [I C]. exists (value k). apply get_over_keys. tauto.
Qed.

End OverKeys.

End PyDictFacts.

(* ================================================================= *)
(** ** Facts about the helpers of the class *)

Module HelperFacts.
Import PyStr PyStrFacts PyDictFacts FileReNamer.

Lemma prefix_dot_cons (c : ascii) (s t : string) :
  String.prefix "." (String c s) = String.prefix "." (String c t).
Proof.
  cbn [String.prefix].
  destruct (ascii_dec "." c); [now rewrite !prefix_empty | reflexivity].
Qed.

(** The first ["."] of a name splits it into stem and extension. *)
Lemma find_dot_split (stem rest : string) :
  contains stem "." = false ->
  find (stem ++ "." ++ rest) "." = Some (String.length stem).
Proof.
  induction stem as [|c stem IH]; intros C.
  - cbn [append find].
    assert (String.prefix "." (String "." rest) = true) as ->
      by apply (prefix_append "." rest).
    reflexivity.
  - rewrite contains_cons in C. apply orb_false_iff in C as [P C].
    change (String c stem ++ "." ++ rest)
      with (String c (stem ++ "." ++ rest)).
    cbn [find]. rewrite (prefix_dot_cons c _ stem), P, (IH C). reflexivity.
Qed.

Lemma find_dot_stem (fname : string) (i : nat) :
  find fname "." = Some i ->
  exists rest, fname = slice_to fname i ++ "." ++ rest /\
               String.length (slice_to fname i) = i /\
               contains (slice_to fname i) "." = false.
Proof.
  intros F. destruct (find_some_split _ _ _ F) as (rest & E & L & Min).
  exists rest. repeat split; [assumption..|].
  destruct (contains (slice_to fname i) ".") eqn:C; [|reflexivity].
  apply contains_iff in C as (p & q & C).
  assert (i <= String.length p) as B.
  { apply (Min p (q ++ "." ++ rest)). rewrite E at 1. rewrite C.
    now rewrite !append_assoc. }
  rewrite C, !length_append in L. cbn [String.length] in L. lia.
Qed.

Lemma get_suffixed_ret (fname suffix v : string) :
  get_suffixed fname suffix = Ret v <->
  exists stem rest, fname = stem ++ "." ++ rest /\
                    contains stem "." = false /\
                    v = stem ++ suffix ++ "." ++ rest.
Proof.
  unfold get_suffixed, get_ext, index. split.
  - destruct (find fname ".") as [i|] eqn:F; [|discriminate].
    intros V. injection V as <-.
    destruct (find_dot_stem _ _ F) as (rest & E & L & C).
    exists (slice_to fname i), rest. repeat split; [assumption..|].
    do 2 f_equal. rewrite E at 1. rewrite <- L at 2.
    apply slice_from_append.
  - intros (stem & rest & -> & C & ->).
    rewrite (find_dot_split _ _ C).
    now rewrite slice_to_append, slice_from_append.
Qed.

Lemma get_suffixed_raise (fname suffix : string) (e : exn) :
  get_suffixed fname suffix = Raise e <->
  e = ValueError /\ contains fname "." = false.
Proof.
  unfold get_suffixed, get_ext, index. rewrite <- find_none_iff.
  destruct (find fname ".") as [i|]; split.
  - discriminate.
  - intros [_ ?]; discriminate.
  - intros R. injection R as <-. now split.
  - intros [-> _]. reflexivity.
Qed.

(** A suffixed name differs from the name unless the suffix is empty. *)
Lemma get_suffixed_fixed (fname suffix : string) :
  get_suffixed fname suffix = Ret fname -> suffix = "".
Proof.
  intros G. apply get_suffixed_ret in G as (stem & rest & E & _ & V).
  rewrite E in V at 1. apply append_inv_head in V.
  apply length_zero_empty. apply (f_equal String.length) in V.
  rewrite !length_append in V. lia.
Qed.

Lemma get_prefixed_fixed (fname prefix : string) :
  get_prefixed fname prefix = fname -> prefix = "".
Proof.
  unfold get_prefixed. intros E. apply length_zero_empty.
  apply (f_equal String.length) in E. rewrite length_append in E. lia.
Qed.

Lemma endswith_empty (s : string) : endswith s "" = true.
Proof. apply endswith_iff. exists s. now rewrite append_nil_r. Qed.

Lemma startswith_empty (s : string) : startswith s "" = true.
Proof. apply prefix_empty. Qed.

End HelperFacts.

Module TryFacts.
Import PyDictFacts.

Section Try.
Context {A : Type}.
Variables (cond : A -> bool) (key : A -> string) (value : A -> Result string).

Lemma comprehension_try_raise (xs : list A) (d : dict) (e : exn) :
  comprehension_try xs cond key value d = Raise e ->
  exists x, In x xs /\ cond x = true /\ value x = Raise e.
Proof.
  revert d; induction xs as [|x xs IH]; cbn [comprehension_try]; intros d R.
  - discriminate.
  - destruct (cond x) eqn:C.
    + destruct (value x) as [v|e'] eqn:V.
      * destruct (IH _ R) as (y & Y & CY & VY). exists y. cbn [In]. tauto.
      * injection R as ->. exists x. cbn [In]. tauto.
    + destruct (IH _ R) as (y & Y & CY & VY). exists y. cbn [In]. tauto.
Qed.

Lemma comprehension_try_ret (xs : list A) (d d' : dict) :
  comprehension_try xs cond key value d = Ret d' ->
  (forall x, In x xs -> cond x = true -> exists v, value x = Ret v) /\
  d' = fold_left (fun d x => if cond x then set d (key x) (value_or_empty value x)
                             else d) xs d.
Proof.
  revert d; induction xs as [|x xs IH]; cbn [comprehension_try fold_left];
    intros d R.
  - injection R as <-. split; [intros x []|reflexivity].
  - unfold value_or_empty at 2. destruct (cond x) eqn:C.
    + destruct (value x) as [v|e'] eqn:V; [|discriminate].
      destruct (IH _ R) as [T ->]. split; [|reflexivity].
      intros y [<-|Y] CY; [now exists v | auto].
    + destruct (IH _ R) as [T ->]. split; [|reflexivity].
      intros y [<-|Y] CY; [congruence | auto].
Qed.

End Try.

End TryFacts.

(* ================================================================= *)
(** ** The planner *)

Module EnumerateFacts.
Import PyDictFacts.

Lemma In_enumerate_from {A : Type} (xs : list A) (a i : nat) (x : A) :
  In (i, x) (combine (seq a (List.length xs)) xs) <->
  a <= i /\ nth_error xs (i - a) = Some x.
Proof.
  revert a; induction xs as [|y xs IH]; intros a; cbn [List.length seq combine In].
  - split; [tauto|]. intros [_ N]. now destruct (i - a).
  - rewrite IH. split.
    + intros [E|[L N]].
      * injection E as -> ->. rewrite Nat.sub_diag. split; [lia | reflexivity].
      * split; [lia|]. replace (i - a) with (S (i - S a)) by lia. exact N.
    + intros [L N]. destruct (i - a) as [|j] eqn:D.
      * left. injection N as ->. f_equal. lia.
      * right. split; [lia|]. replace (i - S a) with j by lia. exact N.
Qed.

Lemma In_enumerate {A : Type} (xs : list A) (i : nat) (x : A) :
  In (i, x) (enumerate xs) <-> nth_error xs i = Some x.
Proof.
  unfold enumerate. rewrite In_enumerate_from, Nat.sub_0_r.
  split; [tauto | split; [lia | assumption]].
Qed.

Lemma map_snd_enumerate {A : Type} (xs : list A) :
  map snd (enumerate xs) = xs.
Proof.
  unfold enumerate. generalize 0.
  induction xs as [|x xs IH]; intros a; cbn [List.length seq combine map snd].
  - reflexivity.
  - now rewrite IH.
Qed.

Lemma filter_all {A : Type} (xs : list A) : filter (fun _ => true) xs = xs.
Proof. induction xs as [|x xs IH]; cbn [filter]; [reflexivity | now rewrite IH]. Qed.

Lemma In_get_nodup (d : dict) (k v : string) :
  NoDup (keys d) -> In (k, v) d -> get d k = Some v.
Proof.
  induction d as [|[k' v'] d IH]; cbn [keys map fst get In]; intros N I; [tauto|].
  apply NoDup_cons_iff in N as [F N]. destruct I as [E|I].
  - injection E as -> ->. now rewrite String.eqb_refl.
  - destruct (k' =? k)%string eqn:E; [|auto].
    apply String.eqb_eq in E as ->. elim F.
    now apply (in_map fst) in I.
Qed.

Lemma comprehension_none {A : Type} (xs : list A) (cond : A -> bool)
    (key value : A -> string) :
  (forall x, In x xs -> cond x = false) ->
  comprehension xs cond key value = [].
Proof.
  unfold comprehension. generalize (@nil (string * string)).
  induction xs as [|x xs IH]; cbn [fold_left]; intros d F; [reflexivity|].
  rewrite (F x) by now left. apply IH. intros y Y. apply F. now right.
Qed.

End EnumerateFacts.

Section Planner.
Import PyStr PyStrFacts PyDictFacts ReplaceFacts HelperFacts TryFacts.
Import EnumerateFacts FileReNamer.

(** C4. The [replace] plan has a filename of the snapshot as a key
    exactly when [from] occurs in it, and maps it to the filename with
    every non-overlapping occurrence of [from], found scanning from the
    left, replaced by [to]; a filename without [from] has no entry. *)
Theorem replace_change_list_spec (from to : string) (snapshot : list string) :
  let plan := replace_change_list from to snapshot in
  (forall f, In f (keys plan) <-> In f snapshot /\ contains f from = true) /\
  (forall f, contains f from = true <->
             exists pre post, f = pre ++ from ++ post) /\
  (forall f v, get plan f = Some v ->
     v = PyStr.replace f from to /\
     (from <> "" -> Replaced from to f v) /\
     (from = "" -> v = replace_empty to f)) /\
  (forall f, contains f from = false -> get plan f = None).
Proof.
  cbv zeta. unfold replace_change_list. split; [|split; [|split]].
  - intros f. apply (keys_over_keys (fun x => contains x from)).
  - intros f. apply contains_iff.
  - intros f v G.
    apply (get_over_keys (fun x => contains x from)) in G as (_ & _ & ->).
    split; [reflexivity|]. split.
    + intros N. now apply Replaced_iff.
    + intros ->. reflexivity.
  - intros f C. apply get_None.
    rewrite (keys_over_keys (fun x => contains x from)). intros [_ C'].
    congruence.
Qed.

(** C5, as amended. When the entry of a filename containing [from] has
    no occurrence of [from], then [to] has none either. (The converse
    does not hold: joining a replacement to the text around it can form
    a new occurrence.) *)
Theorem replace_entry_without_from (from to f v : string)
    (snapshot : list string) :
  contains f from = true ->
  get (replace_change_list from to snapshot) f = Some v ->
  contains v from = false ->
  contains to from = false.
Proof.
  intros C G V.
  apply (get_over_keys (fun x => contains x from)) in G as (_ & _ & ->).
  destruct (contains to from) eqn:T; [|reflexivity].
  rewrite (contains_trans _ to from) in V; [discriminate| |assumption].
  now apply replace_present.
Qed.

Lemma replace_entry_without_from_witness :
  contains "b.txt" "a" = false /\ contains "b" "a" = false.
Proof.
  split; [reflexivity|].
  apply (replace_entry_without_from "a" "b" "a.txt" "b.txt" ["a.txt"]);
    reflexivity.
Defined.

(** C5, the counterexample. Replacing ["ab"] by ["a"] in ["abb"] gives
    ["ab"]: [to] does not contain [from], and yet the entry does. *)
Lemma replace_entry_keeps_from :
  get (replace_change_list "ab" "a" ["abb"]) "abb" = Some "ab" /\
  contains "abb" "ab" = true /\
  ~ (contains "ab" "ab" = false <-> contains "a" "ab" = false).
Proof.
  repeat split. intros [_ F]. specialize (F eq_refl). discriminate.
Qed.

Lemma add_enum_items (start : Z) (loc sep : string) (snapshot : list string) :
  NoDup snapshot ->
  items (add_enum_change_list start loc sep snapshot) =
  map (fun '(idx, filename) =>
         (filename, filename ++ sep ++ str (Z.of_nat idx + start)))
      (enumerate snapshot).
Proof.
  intros N. unfold add_enum_change_list.
  rewrite comprehension_fresh; rewrite filter_all.
  - apply map_ext. now intros [idx filename].
  - rewrite (map_ext _ snd) by now intros [idx filename].
    now rewrite map_snd_enumerate.
Qed.

Lemma add_enum_entry (start : Z) (loc sep : string) (snapshot : list string)
    (k v : string) :
  In (k, v) (items (add_enum_change_list start loc sep snapshot)) ->
  exists idx, nth_error snapshot idx = Some k /\
              v = k ++ sep ++ str (Z.of_nat idx + start).
Proof.
  intros I. apply comprehension_In in I as ([idx f] & I & _ & -> & ->).
  exists idx. split; [now apply In_enumerate | reflexivity].
Qed.

(** C6. Over a listing (of distinct names) the [add_enum] plan has
    every filename, in listing order, and maps the filename at index
    [i] to name, separator and [str(i + start)], after the extension.
    In particular, start 5 and separator ["_"] over [a.txt], [b.txt],
    [c.txt] give [a.txt_5], [b.txt_6], [c.txt_7] in that order. *)
Theorem add_enum_change_list_spec :
  (forall (start : Z) (loc sep : string) (snapshot : list string),
     NoDup snapshot ->
     let plan := add_enum_change_list start loc sep snapshot in
     keys plan = snapshot /\
     (forall i f, nth_error snapshot i = Some f ->
                  get plan f = Some (f ++ sep ++ str (Z.of_nat i + start)))) /\
  items (add_enum_change_list 5 "end" "_" ["a.txt"; "b.txt"; "c.txt"]) =
  [("a.txt", "a.txt_5"); ("b.txt", "b.txt_6"); ("c.txt", "c.txt_7")].
Proof.
  split; [|reflexivity].
  intros start loc sep snapshot N. cbv zeta.
  pose proof (add_enum_items start loc sep snapshot N) as E.
  unfold items in E.
  assert (keys (add_enum_change_list start loc sep snapshot) = snapshot) as K.
  { unfold keys. rewrite E, map_map.
    rewrite (map_ext _ snd) by now intros [idx filename].
    apply map_snd_enumerate. }
  split; [exact K|].
  intros i f I. apply In_get_nodup; [now rewrite K|].
  rewrite E. apply in_map_iff. exists (i, f).
  split; [reflexivity | now apply In_enumerate].
Qed.

Lemma add_enum_change_list_spec_witness :
  keys (add_enum_change_list 5 "end" "_" ["a.txt"; "b.txt"; "c.txt"]) =
  ["a.txt"; "b.txt"; "c.txt"] /\
  get (add_enum_change_list 5 "end" "_" ["a.txt"; "b.txt"; "c.txt"]) "b.txt" =
  Some "b.txt_6".
Proof.
  assert (NoDup ["a.txt"; "b.txt"; "c.txt"]) as N.
  { repeat constructor; cbn [In]; intros F;
      repeat (destruct F as [F|F]; [discriminate|]); exact F. }
  destruct (proj1 add_enum_change_list_spec 5%Z "end" "_"
              ["a.txt"; "b.txt"; "c.txt"] N) as [K G].
  split; [exact K | exact (G 1 "b.txt" eq_refl)].
Defined.

(** C10. The parameter [loc] of [add_enum] has no effect: any two
    values give the same plan and the same run, and the number always
    stands at the very end of the new name. *)
Theorem add_enum_ignores_loc (start : Z) (sep : string)
    (snapshot : list string) (loc1 loc2 : string) :
  add_enum_change_list start loc1 sep snapshot =
  add_enum_change_list start loc2 sep snapshot /\
  (forall (FS : Type) (F : FileSystem FS) (self : t) (display : bool)
          (w : World FS),
     add_enum self start loc1 sep display w =
     add_enum self start loc2 sep display w) /\
  (forall k v,
     In (k, v) (items (add_enum_change_list start loc1 sep snapshot)) ->
     exists i, nth_error snapshot i = Some k /\
               v = k ++ sep ++ str (Z.of_nat i + start) /\
               endswith v (str (Z.of_nat i + start)) = true).
Proof.
  split; [reflexivity|]. split; [reflexivity|].
  intros k v I. apply add_enum_entry in I as (i & N & ->).
  exists i. split; [exact N|]. split; [reflexivity|].
  apply endswith_iff. exists (k ++ sep). now rewrite append_assoc.
Qed.


(** C8. [add_suffix] plans a filename exactly when it does not end
    with the suffix, and maps it to stem, suffix and extension, split
    at the first ["."]. The planning fails, with the [ValueError] of
    [str.index], exactly when a planned filename has no ["."]; the
    method then raises it to its caller and does nothing else. *)
Theorem add_suffix_change_list_spec (suffix : string)
    (snapshot : list string) :
  (add_suffix_change_list suffix snapshot = Raise ValueError <->
   exists f, In f snapshot /\ endswith f suffix = false /\
             contains f "." = false) /\
  (forall e, add_suffix_change_list suffix snapshot = Raise e ->
             e = ValueError) /\
  (forall plan, add_suffix_change_list suffix snapshot = Ret plan ->
     (forall f, In f (keys plan) <->
                In f snapshot /\ endswith f suffix = false) /\
     (forall f v, get plan f = Some v ->
        exists stem rest, f = stem ++ "." ++ rest /\
                          contains stem "." = false /\
                          v = stem ++ suffix ++ "." ++ rest)) /\
  (forall (FS : Type) (F : FileSystem FS) (self : t) (display : bool)
          (w : World FS),
     fs_listdir (fs w) (directory self) = snapshot ->
     add_suffix_change_list suffix snapshot = Raise ValueError ->
     add_suffix self suffix display w = (Raise ValueError, w)).
Proof.
  assert (forall e, add_suffix_change_list suffix snapshot = Raise e ->
                    e = ValueError /\
                    exists f, In f snapshot /\ endswith f suffix = false /\
                              contains f "." = false) as R.
  { intros e E. apply comprehension_try_raise in E as (f & I & C & V).
    apply get_suffixed_raise in V as [-> V]. split; [reflexivity|].
    exists f. apply negb_true_iff in C. tauto. }
  split; [|split; [|split]].
  - split; [intros E; now apply R in E|].
    intros (f & I & C & D).
    destruct (add_suffix_change_list suffix snapshot) as [plan|e] eqn:E.
    + apply comprehension_try_ret in E as [T _].
      destruct (T f I) as [v V]; [now rewrite C|].
      apply get_suffixed_ret in V as (stem & rest & -> & _).
      assert (contains (stem ++ "." ++ rest) "." = true) as D'
        by (apply contains_iff; now exists stem, rest).
      congruence.
    + now destruct (R e eq_refl) as [-> _].
  - intros e E. now apply R in E.
  - intros plan E. apply comprehension_try_ret in E as [T ->].
    fold (comprehension snapshot (fun x => negb (endswith x suffix))
            (fun x => x)
            (value_or_empty (fun x => get_suffixed x suffix))).
    split.
    + intros f.
      rewrite (keys_over_keys (fun x => negb (endswith x suffix))).
      now rewrite negb_true_iff.
    + intros f v G.
      apply (get_over_keys (fun x => negb (endswith x suffix))) in G
        as (I & C & ->).
      destruct (T f I C) as [v V]. unfold value_or_empty. rewrite V.
      now apply get_suffixed_ret.
  - intros FS F self display w L E.
    unfold add_suffix, bind, filenames, lift. now rewrite L, E.
Qed.

Lemma joiner_fixed (loc fname : string) (captured : option string) :
  joiner loc fname captured = Ret fname -> captured = Some "".
Proof.
  unfold joiner. destruct (loc =? "end")%string; destruct captured as [text|].
  - intros E. now apply get_suffixed_fixed in E as ->.
  - destruct (index fname "."); discriminate.
  - intros E. injection E as E. now apply get_prefixed_fixed in E as ->.
  - discriminate.
Qed.

(** The loop of [add_from_file] leaves the file system alone, and
    every entry it adds is a name of the listing joined with what the
    search captured in the text of its file. *)
Lemma add_from_file_change_list_entries {FS : Type} `{FileSystem FS}
    (re_search : Regex) (self : t) (pattern loc : string)
    (names : list string) :
  forall (d0 : dict) (w : World FS) (d : dict) (w' : World FS),
    add_from_file_change_list re_search self pattern loc names d0 w
    = (Ret d, w') ->
    fs w' = fs w /\
    forall k v, In (k, v) d ->
      In (k, v) d0 \/
      (In k names /\
       exists txt captured,
         fs_read (fs w) (join_with_dir self k) = Ret txt /\
         re_search pattern txt = Ret (Some (Group1 captured)) /\
         joiner loc k captured = Ret v).
Proof.
  induction names as [|filename rest IH]; intros d0 w d w' R;
    cbn [add_from_file_change_list] in R.
  - injection R as <- <-. split; [reflexivity | now left].
  - destruct (endswith filename ".txt") eqn:T; cbn [negb] in R.
    + unfold bind at 1, open_read in R.
      destruct (fs_read (fs w) (join_with_dir self filename))
        as [txt|e] eqn:O; [|discriminate].
      unfold bind at 1, lift at 1 in R.
      destruct (re_search pattern txt) as [[m|]|e] eqn:S; [| |discriminate].
      * unfold bind at 1, lift at 1 in R.
        destruct m as [|captured]; cbn [group1] in R; [discriminate|].
        unfold bind at 1, lift at 1 in R.
        destruct (joiner loc filename captured) as [v0|e] eqn:J;
          [|discriminate].
        apply IH in R as [F E]. split; [exact F|].
        intros k v I. apply E in I as [I|(I & more)].
        -- apply In_set in I as [I|I]; [|now left].
           injection I as -> ->. right. split; [now left|].
           now exists txt, captured.
        -- right. split; [now right | exact more].
      * apply IH in R as [F E]. split; [exact F|].
        intros k v I. apply E in I as [I|(I & more)];
          [now left|]. right. split; [now right | exact more].
    + unfold bind at 1, print in R.
      apply IH in R as [F E]. split; [exact F|].
      intros k v I. apply E in I as [I|(I & more)];
        [now left|]. right. split; [now right | exact more].
Qed.

(** C3, as amended. Every key of a plan is a name of the snapshot. A
    key can equal its own value only in a [Replace] plan whose [from]
    and [to] are the same string, or in a [ContentMatch] plan at a file
    whose captured text is empty; the plans of [Prefix], [Suffix] and
    [Enumerate], and of [Replace] with different strings, have no such
    entry. *)
Theorem plan_keys_and_fixed_entries {FS : Type} `{FileSystem FS}
    (re_search : Regex) (self : t) (rule : Spec.RenameRule)
    (snapshot : list string) (w : World FS) (d : dict) (w' : World FS) :
  Spec.plan re_search self rule snapshot w = (Ret d, w') ->
  (forall k, In k (keys d) -> In k snapshot) /\
  (forall k v, In (k, v) (items d) -> k = v ->
     (exists s, rule = Spec.Replace s s) \/
     (exists pattern position txt,
        rule = Spec.ContentMatch pattern position /\
        fs_read (fs w) (join_with_dir self k) = Ret txt /\
        re_search pattern txt = Ret (Some (Group1 (Some ""))))).
Proof.
  intros P.
  enough (forall k v, In (k, v) d ->
            In k snapshot /\
            (k = v ->
             (exists s, rule = Spec.Replace s s) \/
             (exists pattern position txt,
                rule = Spec.ContentMatch pattern position /\
                fs_read (fs w) (join_with_dir self k) = Ret txt /\
                re_search pattern txt = Ret (Some (Group1 (Some "")))))) as E.
  { split.
    - intros k K. apply get_Some_key in K as [v G]. apply get_In in G.
      now apply E in G.
    - intros k v I. now apply E in I. }
  intros k v I.
  destruct rule as [from to|text|text|start separator position
                   |pattern position]; cbn [Spec.plan] in P.
  - injection P as <- _.
    apply comprehension_In in I as (f & I & C & -> & ->).
    split; [exact I|]. intros E. left. exists from.
    destruct (String.eqb_spec from to) as [->|N]; [reflexivity|].
    symmetry in E. now apply replace_changes in E.
  - injection P as <- _.
    apply comprehension_In in I as (f & I & C & -> & ->).
    split; [exact I|]. intros E. exfalso.
    symmetry in E. apply get_prefixed_fixed in E as ->.
    now rewrite startswith_empty in C.
  - unfold lift in P. injection P as P _.
    apply comprehension_try_ret in P as [T ->].
    apply fold_comprehension_In in I as [[]|(f & I & C & -> & ->)].
    split; [exact I|]. intros E. exfalso.
    destruct (T f I C) as [v V]. unfold value_or_empty in E. rewrite V in E.
    subst v. apply get_suffixed_fixed in V as ->.
    now rewrite endswith_empty in C.
  - injection P as <- _.
    apply add_enum_entry in I as (i & N & ->).
    split; [now apply nth_error_In in N|]. intros E. exfalso.
    apply (f_equal String.length) in E. rewrite !length_append in E.
    pose proof (str_nonempty (Z.of_nat i + start)) as S.
    destruct (str (Z.of_nat i + start)); [now elim S | simpl in E; lia].
  - apply add_from_file_change_list_entries in P as [_ E].
    apply E in I as [[]|(I & txt & captured & O & S & J)].
    split; [exact I|]. intros <-. right. exists pattern, position, txt.
    split; [reflexivity|]. split; [exact O|].
    now apply joiner_fixed in J as ->.
Qed.

Lemma plan_keys_and_fixed_entries_witness :
  (forall k, In k (keys [("a.txt", "p_a.txt")]) -> In k ["a.txt"; "p_b"]) /\
  (forall k v, In (k, v) (items [("a.txt", "p_a.txt")]) -> k = v ->
     (exists s, Spec.Prefix "p_" = Spec.Replace s s) \/
     (exists pattern position txt,
        Spec.Prefix "p_" = Spec.ContentMatch pattern position /\
        fs_read (fs (mkWorld MemFS.two_files [] []))
                (join_with_dir MemFS.folder k) = Ret txt /\
        MemFS.literal_search pattern txt = Ret (Some (Group1 (Some ""))))).
Proof.
  apply (plan_keys_and_fixed_entries MemFS.literal_search MemFS.folder
           (Spec.Prefix "p_") ["a.txt"; "p_b"]
           (mkWorld MemFS.two_files [] []) [("a.txt", "p_a.txt")]
           (mkWorld MemFS.two_files [] [])).
  reflexivity.
Defined.

(** C3, the counterexample. Replacing ["a"] by ["a"] plans the no-op
    entry [a.txt -> a.txt]. *)
Lemma replace_plans_noop_entry :
  fst (Spec.plan MemFS.literal_search MemFS.folder (Spec.Replace "a" "a")
         ["a.txt"; "b.txt"] (mkWorld MemFS.two_files [] []))
  = Ret [("a.txt", "a.txt")].
Proof. reflexivity. Qed.

End Planner.

(* ================================================================= *)
(** ** The executor *)

Section Executor.
Import PyStr FileReNamer Spec.
Context {FS : Type} `{FileSystem FS}.

Lemma for_each_print {A : Type} (body : A -> M FS unit) (line : A -> string)
    (xs : list A) (w : World FS) :
  (forall x, body x = print (line x)) ->
  for_each body xs w =
  (Ret tt, mkWorld (fs w) (stdin w)
             (trace w ++ map (fun x => EvPrint (line x)) xs)%list).
Proof.
  intros B. revert w; induction xs as [|x xs IH]; intros w; cbn [for_each map].
  - unfold ret. rewrite app_nil_r. now destruct w.
  - unfold bind. rewrite B. unfold print. rewrite IH. cbn [log fs stdin trace].
    now rewrite <- app_assoc.
Qed.

(** One call of [rename] does what the outcome of its two checks
    says; an [os.rename] that raises is passed on. *)
Lemma rename_run (self : t) (old_path new_path : string) (w : World FS) :
  let o := outcome_at (fs w) old_path new_path in
  rename self old_path new_path w =
  match outcome_state (fs w) o old_path new_path with
  | Some st =>
      (Ret tt,
       mkWorld st (stdin w) (trace w ++ outcome_events o old_path new_path)%list)
  | None =>
      (Raise OSError,
       mkWorld (fs w) (stdin w) (trace w ++ [EvRename old_path new_path])%list)
  end.
Proof.
  cbv zeta. unfold rename, outcome_at, bind, os_path_exists.
  destruct (fs_exists (fs w) old_path); cbn [negb outcome_state];
    [|reflexivity].
  destruct (fs_exists (fs w) new_path); cbn [outcome_state]; [reflexivity|].
  unfold os_rename. now destruct (fs_rename (fs w) old_path new_path).
Qed.

Lemma execute_cons (self : t) (old new : string)
    (todo : list (string * string)) (st : FS) :
  let old_path := join_with_dir self old in
  let new_path := join_with_dir self new in
  let o := outcome_at st old_path new_path in
  execute self ((old, new) :: todo) st =
  match outcome_state st o old_path new_path with
  | Some st' =>
      mkRun ((old, new, o) :: outcomes (execute self todo st'))
            (final (execute self todo st'))
            (failed (execute self todo st'))
  | None => mkRun [] st (Some (old, new))
  end.
Proof. reflexivity. Qed.

(** The loop of [rename_these] is the executor of the specification. *)
Lemma for_each_rename_run (self : t) (entries : list (string * string))
    (w : World FS) :
  for_each (fun '(old, new) =>
              rename self (join_with_dir self old) (join_with_dir self new))
           entries w =
  (result (execute self entries (fs w)),
   mkWorld (final (execute self entries (fs w))) (stdin w)
     (trace w ++ report self (execute self entries (fs w)))%list).
Proof.
  revert w; induction entries as [|[old new] entries IH]; intros w.
  - cbn. rewrite app_nil_r. now destruct w.
  - cbn [for_each]. unfold bind. rewrite rename_run, execute_cons.
    destruct (outcome_state (fs w) _ _ _) as [st|].
    + rewrite IH. cbn [fs stdin trace].
      unfold result, report. cbn [outcomes final failed flat_map].
      now rewrite <- !app_assoc.
    + reflexivity.
Qed.

Lemma show_changes_run (files_to_change : dict) (w : World FS) :
  show_changes files_to_change w =
  (Ret tt,
   mkWorld (fs w) (stdin w)
     (trace w ++
      EvPrint (dashes ++ newline ++ "CHANGES:" ++ newline ++ dashes)
      :: map (fun '(old, new) => EvPrint (old ++ tab ++ "->" ++ tab ++ new))
             (items files_to_change))%list).
Proof.
  unfold show_changes, bind at 1, print at 1.
  rewrite (for_each_print _
             (fun '(old, new) => old ++ tab ++ "->" ++ tab ++ new))
    by now intros [old new].
  cbn [log fs stdin trace]. rewrite <- app_assoc. cbn [app].
  do 4 f_equal. apply map_ext. now intros [old new].
Qed.

(** [rename_these] up to its prompt: the answer is consumed and nothing
    else changes. *)
Lemma rename_these_prompt (files_to_change : dict) (display : bool)
    (w : World FS) (ans : string) (rest : list string) :
  stdin w = ans :: rest ->
  ((if display then show_changes files_to_change else ret tt) ;;
   input "Make these changes? (y/n): ") w =
  (Ret ans, mkWorld (fs w) rest (trace w ++ preview files_to_change display)%list).
Proof.
  intros I. unfold bind, preview. destruct display.
  - rewrite show_changes_run. unfold input. cbn [fs stdin trace].
    rewrite I. now rewrite <- app_assoc.
  - unfold ret, input. now rewrite I.
Qed.

Lemma rename_these_split (self : t) (files_to_change : dict) (display : bool)
    (w : World FS) :
  rename_these self files_to_change display w =
  match ((if display then show_changes files_to_change else ret tt) ;;
         input "Make these changes? (y/n): ") w with
  | (Ret ans, w') =>
      if negb (ans =? "y")%string then
        print ("Changes discarded..." ++ newline) w'
      else
        for_each (fun '(old, new) =>
                    rename self (join_with_dir self old)
                                (join_with_dir self new))
                 (items files_to_change) w'
  | (Raise e, w') => (Raise e, w')
  end.
Proof.
  unfold rename_these, bind.
  destruct ((if display then show_changes files_to_change else ret tt) w)
    as [[[]|e] w1]; [|reflexivity].
  destruct (input "Make these changes? (y/n): " w1) as [[ans|e] w2];
    [|reflexivity].
  now destruct (negb (ans =? "y")%string).
Qed.

Lemma rename_these_declined_run (self : t) (files_to_change : dict)
    (display : bool) (w : World FS) (ans : string) (rest : list string) :
  stdin w = ans :: rest -> ans <> "y" ->
  rename_these self files_to_change display w =
  (Ret tt,
   mkWorld (fs w) rest
     (trace w ++ preview files_to_change display
              ++ [EvPrint ("Changes discarded..." ++ newline)])%list).
Proof.
  intros I N. rewrite rename_these_split, (rename_these_prompt _ _ _ _ _ I).
  apply String.eqb_neq in N. rewrite N. cbn [negb].
  unfold print, log. cbn [fs stdin trace]. now rewrite <- app_assoc.
Qed.

Lemma rename_these_confirmed_run (self : t) (files_to_change : dict)
    (display : bool) (w : World FS) (rest : list string) :
  stdin w = "y" :: rest ->
  rename_these self files_to_change display w =
  (result (execute self (items files_to_change) (fs w)),
   mkWorld (final (execute self (items files_to_change) (fs w))) rest
     (trace w ++ preview files_to_change display
              ++ report self (execute self (items files_to_change) (fs w)))%list).
Proof.
  intros I. rewrite rename_these_split, (rename_these_prompt _ _ _ _ _ I).
  cbn [String.eqb Ascii.eqb Bool.eqb negb].
  rewrite for_each_rename_run. cbn [fs stdin trace].
  now rewrite <- app_assoc.
Qed.

(** The executor takes the entries one after the other: after a
    first part that did not fail, it goes on with the rest from the
    state that part left; a first part that failed is the whole
    run. *)
Lemma execute_app (self : t) (done todo : list (string * string)) (st : FS) :
  execute self (done ++ todo) st =
  match failed (execute self done st) with
  | None =>
      mkRun (outcomes (execute self done st)
             ++ outcomes (execute self todo (final (execute self done st))))
            (final (execute self todo (final (execute self done st))))
            (failed (execute self todo (final (execute self done st))))
  | Some _ => execute self done st
  end.
Proof.
  revert st; induction done as [|[old new] done IH]; intros st.
  - cbn. now destruct (execute self todo st).
  - change (((old, new) :: done) ++ todo)%list
      with ((old, new) :: (done ++ todo))%list.
    rewrite !execute_cons.
    destruct (outcome_state st _ _ _) as [st'|]; [|reflexivity].
    rewrite IH. cbn [failed outcomes final].
    destruct (failed (execute self done st')) eqn:F;
      cbn [failed outcomes final]; [now rewrite F | reflexivity].
Qed.

(** The outcomes are those of the entries, in order, up to the entry
    that failed. *)
Lemma execute_entries (self : t) (entries : list (string * string)) (st : FS) :
  exists todo,
    entries =
    (map (fun '(old, new, _) => (old, new))
         (outcomes (execute self entries st)) ++ todo)%list /\
    match failed (execute self entries st) with
    | None => todo = []
    | Some entry => exists after, todo = entry :: after
    end.
Proof.
  revert st; induction entries as [|[old new] entries IH]; intros st.
  - now exists [].
  - rewrite execute_cons.
    destruct (outcome_state st _ _ _) as [st'|].
    + destruct (IH st') as (todo & E & F). exists todo.
      cbn [outcomes failed map app]. split; [now rewrite <- E | exact F].
    + exists ((old, new) :: entries). split; [reflexivity | now exists entries].
Qed.

Lemma execute_outcome_entry (self : t) (entries : list (string * string))
    (st : FS) (old new : string) (o : RenameOutcome) :
  In (old, new, o) (outcomes (execute self entries st)) ->
  In (old, new) entries.
Proof.
  intros I. destruct (execute_entries self entries st) as (todo & E & _).
  rewrite E. apply in_or_app. left. apply in_map_iff.
  now exists (old, new, o).
Qed.

Lemma execute_failed_entry (self : t) (entries : list (string * string))
    (st : FS) (entry : string * string) :
  failed (execute self entries st) = Some entry -> In entry entries.
Proof.
  intros F. destruct (execute_entries self entries st) as (todo & E & T).
  rewrite F in T. destruct T as [after ->]. rewrite E.
  apply in_or_app. right. now left.
Qed.

Lemma report_has_rename (self : t) (run : Run FS)
    (old_path new_path : string) :
  In (EvRename old_path new_path) (report self run) ->
  exists old new,
    (In (old, new, Applied) (outcomes run) \/ failed run = Some (old, new)) /\
    old_path = join_with_dir self old /\
    new_path = join_with_dir self new.
Proof.
  unfold report. intros I. apply in_app_or in I as [I|I].
  - apply in_flat_map in I as ([[old new] o] & I & E).
    destruct o; cbn [outcome_events In] in E; destruct E as [E|[]];
      try discriminate.
    injection E as <- <-. exists old, new. split; [now left | now split].
  - destruct (failed run) as [[old new]|]; [|destruct I].
    destruct I as [E|[]]. injection E as <- <-.
    exists old, new. split; [now right | now split].
Qed.

Lemma preview_no_rename (files_to_change : dict) (display : bool)
    (old_path new_path : string) :
  ~ In (EvRename old_path new_path) (preview files_to_change display).
Proof.
  unfold preview. intros R. apply in_app_or in R as [R|[R|[]]];
    [|discriminate].
  destruct display; [|destruct R].
  destruct R as [R|R]; [discriminate|].
  apply in_map_iff in R as ([old new] & R & _). discriminate.
Qed.

Lemma rename_these_eof_run (self : t) (files_to_change : dict)
    (display : bool) (w : World FS) :
  stdin w = [] ->
  rename_these self files_to_change display w =
  (Raise EOFError,
   mkWorld (fs w) [] (trace w ++ preview files_to_change display)%list).
Proof.
  intros I. rewrite rename_these_split. unfold bind, preview.
  destruct display.
  - rewrite show_changes_run. unfold input, log. cbn [fs stdin trace].
    rewrite I. now rewrite <- app_assoc.
  - unfold ret, input, log. now rewrite I.
Qed.


(** C1. Whatever the plan, an answer other than ["y"] makes
    [rename_these] change nothing: the file system is the one before,
    no rename is invoked, and the directory lists as before. *)
Theorem rename_these_declined (self : t) (files_to_change : dict)
    (display : bool) (w : World FS) (ans : string) (rest : list string) :
  stdin w = ans :: rest ->
  ans <> "y" ->
  exists events,
    rename_these self files_to_change display w =
    (Ret tt, mkWorld (fs w) rest (trace w ++ events)%list) /\
    (forall old_path new_path, ~ In (EvRename old_path new_path) events) /\
    fs_listdir (fs (snd (rename_these self files_to_change display w)))
               (directory self)
    = fs_listdir (fs w) (directory self).
Proof.
  intros I N.
  exists (preview files_to_change display
          ++ [EvPrint ("Changes discarded..." ++ newline)])%list.
  rewrite (rename_these_declined_run _ _ _ _ _ _ I N).
  split; [reflexivity|]. split; [|reflexivity].
  intros old_path new_path R. apply in_app_or in R as [R|[R|[]]];
    [|discriminate].
  unfold preview in R. apply in_app_or in R as [R|[R|[]]]; [|discriminate].
  destruct display; [|destruct R].
  destruct R as [R|R]; [discriminate|].
  apply in_map_iff in R as ([old new] & R & _). discriminate.
Qed.

(** C2, as amended. On a confirmed plan [rename_these] takes the
    entries in insertion order. Each entry it reaches is judged on the
    state left by the entries before it: a missing source gives
    [SkippedMissingSource], a taken target gives [SkippedTargetExists],
    and both leave that state as it is; otherwise [os.rename] is
    invoked. After a skip or a rename that succeeded ([Applied]) the
    remaining entries are processed from the state the entry leaves, so
    a skipped entry neither ends the batch nor undoes anything. A
    rename that raises ends the batch: the exception leaves
    [rename_these], the entries after it are not reached, and the
    renames before it stay. *)
Theorem rename_these_confirmed (self : t) (files_to_change : dict)
    (display : bool) (w : World FS) (rest : list string) :
  stdin w = "y" :: rest ->
  let entries := items files_to_change in
  let run := execute self entries (fs w) in
  rename_these self files_to_change display w =
  (result run,
   mkWorld (final run) rest
     (trace w ++ preview files_to_change display ++ report self run)%list) /\
  (exists unreached,
     entries = (map (fun '(old, new, _) => (old, new)) (outcomes run)
                ++ unreached)%list /\
     match failed run with
     | None => unreached = []
     | Some entry => exists after, unreached = entry :: after
     end) /\
  forall done old new todo,
    entries = (done ++ (old, new) :: todo)%list ->
    failed (execute self done (fs w)) = None ->
    let st := final (execute self done (fs w)) in
    let old_path := join_with_dir self old in
    let new_path := join_with_dir self new in
    let o := outcome_at st old_path new_path in
    (fs_exists st old_path = false ->
     o = SkippedMissingSource /\
     outcome_state st o old_path new_path = Some st) /\
    (fs_exists st old_path = true -> fs_exists st new_path = true ->
     o = SkippedTargetExists /\
     outcome_state st o old_path new_path = Some st) /\
    (fs_exists st old_path = true -> fs_exists st new_path = false ->
     o = Applied /\
     outcome_state st o old_path new_path = fs_rename st old_path new_path) /\
    (forall st',
       outcome_state st o old_path new_path = Some st' ->
       nth_error (outcomes run) (List.length done) = Some (old, new, o) /\
       firstn (List.length done) (outcomes run)
       = outcomes (execute self done (fs w)) /\
       skipn (S (List.length done)) (outcomes run)
       = outcomes (execute self todo st') /\
       final run = final (execute self todo st') /\
       failed run = failed (execute self todo st')) /\
    (outcome_state st o old_path new_path = None ->
     o = Applied /\
     outcomes run = outcomes (execute self done (fs w)) /\
     final run = st /\
     failed run = Some (old, new)).
Proof.
  intros I. cbv zeta.
  split; [now apply rename_these_confirmed_run|].
  split; [apply execute_entries|].
  intros done old new todo E D. rewrite E, execute_app, D, execute_cons.
  assert (List.length (outcomes (execute self done (fs w)))
          = List.length done) as L.
  { destruct (execute_entries self done (fs w)) as (unreached & U & F).
    rewrite D in F. subst unreached. rewrite app_nil_r in U.
    rewrite U at 2. now rewrite length_map. }
  split; [|split; [|split; [|split]]].
  - intros S. unfold outcome_at. now rewrite S.
  - intros S T. unfold outcome_at. now rewrite S, T.
  - intros S T. unfold outcome_at. now rewrite S, T.
  - intros st' O. rewrite O. cbn [outcomes final failed].
    split; [|split; [|split; [|split]]]; try reflexivity.
    + rewrite nth_error_app2 by lia. now rewrite L, Nat.sub_diag.
    + rewrite <- L. rewrite firstn_app, Nat.sub_diag, firstn_all.
      cbn [firstn]. now rewrite app_nil_r.
    + rewrite <- L. rewrite skipn_app.
      replace (S (List.length (outcomes (execute self done (fs w))))
               - List.length (outcomes (execute self done (fs w))))
        with 1 by lia.
      rewrite skipn_all2 by lia. reflexivity.
  - intros O. rewrite O. cbn [outcomes final failed].
    rewrite app_nil_r. split; [|now repeat split].
    destruct (outcome_at _ _ _); [reflexivity | discriminate..].
Qed.

(** C9, as amended. [rename_these] hands no outcome sequence to its
    caller: when the plan is declined it returns [None], and when the
    plan is confirmed it returns [None] unless an [os.rename] raised,
    which makes [rename_these] raise. On a confirmed plan the outcomes
    of the completed entries, in insertion order (one for each entry
    when no rename raised), show only in what the run does: an error
    line for a skipped entry, the rename for an applied one. *)
Theorem rename_these_returns_none (self : t) (files_to_change : dict)
    (display : bool) (w : World FS) :
  (forall ans rest, stdin w = ans :: rest -> ans <> "y" ->
     fst (rename_these self files_to_change display w) = Ret tt) /\
  (forall rest, stdin w = "y" :: rest ->
     let run := execute self (items files_to_change) (fs w) in
     fst (rename_these self files_to_change display w) = result run /\
     (failed run = None ->
      fst (rename_these self files_to_change display w) = Ret tt /\
      map (fun '(old, new, _) => (old, new)) (outcomes run)
      = items files_to_change) /\
     (forall entry, failed run = Some entry ->
        fst (rename_these self files_to_change display w) = Raise OSError) /\
     trace (snd (rename_these self files_to_change display w)) =
     (trace w ++ preview files_to_change display ++ report self run)%list).
Proof.
  split.
  - intros ans rest I N.
    now rewrite (rename_these_declined_run _ _ _ _ _ _ I N).
  - intros rest I. cbv zeta.
    rewrite (rename_these_confirmed_run _ _ _ _ _ I). cbn [fst snd trace].
    split; [reflexivity|]. split; [|split; [|reflexivity]].
    + intros F. unfold result. rewrite F. split; [reflexivity|].
      destruct (execute_entries self (items files_to_change) (fs w))
        as (unreached & U & T).
      rewrite F in T. subst unreached. now rewrite app_nil_r in U.
    + intros entry F. unfold result. now rewrite F.
Qed.


End Executor.

Section ExecutorExamples.
Import FileReNamer Spec MemFS.

Lemma rename_these_declined_witness :
  exists events,
    rename_these folder [("report.csv", "final.csv")] true
      (mkWorld two_files ["n"] []) =
    (Ret tt, mkWorld two_files [] ([] ++ events)%list) /\
    (forall old_path new_path, ~ In (EvRename old_path new_path) events) /\
    fs_listdir
      (fs (snd (rename_these folder [("report.csv", "final.csv")] true
                  (mkWorld two_files ["n"] []))))
      (directory folder)
    = ["report.csv"; "summary.csv"].
Proof.
  refine (rename_these_declined folder [("report.csv", "final.csv")] true
            (mkWorld two_files ["n"] []) "n" [] eq_refl _).
  discriminate.
Defined.

Lemma rename_these_confirmed_witness :
  outcomes (execute folder
              [("missing.csv", "x.csv"); ("report.csv", "summary.csv");
               ("summary.csv", "final.csv")] two_files)
  = [("missing.csv", "x.csv", SkippedMissingSource);
     ("report.csv", "summary.csv", SkippedTargetExists);
     ("summary.csv", "final.csv", Applied)] /\
  fs_listdir
    (fs (snd (rename_these folder
                [("missing.csv", "x.csv"); ("report.csv", "summary.csv");
                 ("summary.csv", "final.csv")] false
                (mkWorld two_files ["y"] []))))
    "d"
  = ["report.csv"; "final.csv"].
Proof.
  destruct (rename_these_confirmed folder
              [("missing.csv", "x.csv"); ("report.csv", "summary.csv");
               ("summary.csv", "final.csv")] false
              (mkWorld two_files ["y"] []) [] eq_refl) as [R _].
  split; [reflexivity|]. rewrite R. reflexivity.
Defined.

(** C2, the counterexample. The first entry passes both checks and its
    [os.rename] raises, the folder [d/a] being missing: [rename_these]
    raises, and the second entry, whose source exists and whose target
    is free, is not renamed. *)
Lemma rename_these_aborts_on_failed_rename :
  fst (rename_these folder [("a_b.txt", "a/b.txt"); ("c.txt", "e.txt")] false
         (mkWorld underscore_files ["y"] []))
  = Raise OSError /\
  fs_exists underscore_files "d/c.txt" = true /\
  fs_exists underscore_files "d/e.txt" = false /\
  fs (snd (rename_these folder
             [("a_b.txt", "a/b.txt"); ("c.txt", "e.txt")] false
             (mkWorld underscore_files ["y"] [])))
  = underscore_files /\
  outcomes (execute folder [("a_b.txt", "a/b.txt"); ("c.txt", "e.txt")]
              underscore_files) = [].
Proof. repeat split. Qed.

(** C9, the counterexample. The same one-entry plan is applied in one
    directory and skipped in another, and [rename_these] returns the
    same value, [None], both times: the outcome is not in what it
    returns. *)
Lemma rename_these_result_hides_outcome :
  fst (rename_these folder [("report.csv", "final.csv")] true
         (mkWorld two_files ["y"] []))
  = fst (rename_these folder [("report.csv", "final.csv")] true
           (mkWorld [] ["y"] [])) /\
  fst (rename_these folder [("report.csv", "final.csv")] true
         (mkWorld two_files ["y"] [])) = Ret tt /\
  outcomes (execute folder [("report.csv", "final.csv")] two_files)
  = [("report.csv", "final.csv", Applied)] /\
  outcomes (execute folder [("report.csv", "final.csv")] ([] : store))
  = [("report.csv", "final.csv", SkippedMissingSource)].
Proof. repeat split. Qed.



End ExecutorExamples.

(* ================================================================= *)
(** ** More about names: stems, extensions and numbers *)

Module NameFacts.
Import PyStr PyStrFacts HelperFacts FileReNamer.

(** Two decompositions of one string: one head is a prefix of the
    other. *)
Lemma append_eq_split (a b c d : string) :
  a ++ b = c ++ d ->
  (exists e, c = a ++ e /\ b = e ++ d) \/
  (exists e, a = c ++ e /\ d = e ++ b).
Proof.
  revert c; induction a as [|x a IH]; intros c E.
  - left. now exists c.
  - destruct c as [|y c].
    + right. now exists (String x a).
    + cbn [append] in E. injection E as -> E.
      destruct (IH c E) as [(e & -> & ->)|(e & -> & ->)].
      * left. now exists e.
      * right. now exists e.
Qed.

Lemma prefix_char_cons (c x : ascii) (s t : string) :
  String.prefix (String c "") (String x s) =
  String.prefix (String c "") (String x t).
Proof.
  cbn [String.prefix].
  destruct (ascii_dec c x); [now rewrite !prefix_empty | reflexivity].
Qed.

(** An occurrence of a single character lies in one of the two parts. *)
Lemma contains_char_append (c : ascii) (a b : string) :
  contains (a ++ b) (String c "") =
  contains a (String c "") || contains b (String c "").
Proof.
  induction a as [|x a IH].
  - cbn [append contains]. now destruct b.
  - change (String x a ++ b) with (String x (a ++ b)).
    rewrite !contains_cons, IH, (prefix_char_cons c x (a ++ b) a).
    now rewrite orb_assoc.
Qed.

Lemma get_ext_ret (fname ext : string) :
  get_ext fname = Ret ext <->
  exists stem rest, fname = stem ++ "." ++ rest /\
                    contains stem "." = false /\
                    ext = "." ++ rest.
Proof.
  unfold get_ext, index. split.
  - destruct (find fname ".") as [i|] eqn:F; [|discriminate].
    intros V. injection V as <-.
    destruct (find_dot_stem _ _ F) as (rest & E & L & C).
    exists (slice_to fname i), rest. repeat split; [assumption..|].
    rewrite E at 1. rewrite <- L at 2. apply slice_from_append.
  - intros (stem & rest & -> & C & ->).
    rewrite (find_dot_split _ _ C). now rewrite slice_from_append.
Qed.

Lemma get_ext_raise (fname : string) (e : exn) :
  get_ext fname = Raise e <-> e = ValueError /\ contains fname "." = false.
Proof.
  unfold get_ext, index. rewrite <- find_none_iff.
  destruct (find fname ".") as [i|]; split.
  - discriminate.
  - intros [_ ?]; discriminate.
  - intros R. injection R as <-. now split.
  - intros [-> _]. reflexivity.
Qed.

(** The decimal digits of a number hold no ["."]. *)
Lemma digits_no_dot (d : Decimal.uint) :
  contains (NilEmpty.string_of_uint d) "." = false.
Proof.
  induction d; cbn [NilEmpty.string_of_uint]; [reflexivity|..];
    rewrite contains_cons, IHd; reflexivity.
Qed.

Lemma str_no_dot (z : Z) : contains (str z) "." = false.
Proof.
  assert (forall d, contains (NilZero.string_of_uint d) "." = false) as U.
  { intros d. unfold NilZero.string_of_uint.
    destruct d; try reflexivity; apply digits_no_dot. }
  unfold str, NilZero.string_of_int.
  destruct (Z.to_int z); [apply U|].
  rewrite contains_cons, U. reflexivity.
Qed.

(** Different numbers print differently. *)
Lemma str_inj (z z' : Z) : str z = str z' -> z = z'.
Proof.
  assert (forall n, NilZero.int_of_string (str n) = Some (Z.to_int n)) as P.
  { intros n. unfold str. apply NilZero.isi.
    - destruct n as [|p|p]; cbn [Z.to_int]; try discriminate.
      intros E. injection E as E.
      now apply DecimalPos.Unsigned.to_uint_nonnil in E.
    - destruct n as [|p|p]; cbn [Z.to_int]; try discriminate.
      intros E. injection E as E.
      now apply DecimalPos.Unsigned.to_uint_nonnil in E. }
  intros E. apply DecimalZ.to_int_inj.
  pose proof (P z) as Pz. rewrite E, P in Pz. now injection Pz.
Qed.

End NameFacts.

(* ================================================================= *)
(** ** More about the helpers and the plans *)

Section MorePlanner.
Import PyStr PyStrFacts PyDictFacts HelperFacts TryFacts EnumerateFacts.
Import NameFacts FileReNamer.

Lemma get_ext_append (fname ext more : string) :
  get_ext fname = Ret ext -> get_ext (fname ++ more) = Ret (ext ++ more).
Proof.
  intros G. apply get_ext_ret in G as (stem & rest & -> & C & ->).
  apply get_ext_ret. exists stem, (rest ++ more).
  split; [now rewrite !append_assoc|]. split; [exact C | reflexivity].
Qed.

(** X1. [get_ext] raises [ValueError] on a name without ["."]; on any
    other name it returns the part from the first ["."] on: the name is
    a dot-free stem followed by that extension. *)
Theorem get_ext_splits_name (fname : string) :
  (contains fname "." = false -> get_ext fname = Raise ValueError) /\
  (contains fname "." = true ->
   exists stem ext, get_ext fname = Ret ext /\
                    fname = stem ++ ext /\
                    startswith ext "." = true /\
                    contains stem "." = false).
Proof.
  split; intros C.
  - now apply get_ext_raise.
  - destruct (get_ext fname) as [ext|e] eqn:G.
    + apply get_ext_ret in G as (stem & rest & -> & S & ->).
      exists stem, ("." ++ rest).
      split; [reflexivity|]. split; [reflexivity|].
      split; [apply (prefix_append "." rest) | exact S].
    + apply get_ext_raise in G as [_ G]. congruence.
Qed.

(** X2. A suffix without ["."] leaves the extension of the name as it
    was. *)
Theorem get_suffixed_keeps_ext (fname suffix new_name : string) :
  get_suffixed fname suffix = Ret new_name ->
  contains suffix "." = false ->
  get_ext new_name = get_ext fname.
Proof.
  intros G S. apply get_suffixed_ret in G as (stem & rest & -> & C & ->).
  transitivity (Ret (A := string) ("." ++ rest)).
  - apply get_ext_ret. exists (stem ++ suffix), rest.
    split; [now rewrite append_assoc|]. split; [|reflexivity].
    now rewrite contains_char_append, C, S.
  - symmetry. apply get_ext_ret. now exists stem, rest.
Qed.

Lemma get_suffixed_keeps_ext_witness :
  get_ext "report_v2.csv" = get_ext "report.csv".
Proof.
  apply (get_suffixed_keeps_ext "report.csv" "_v2" "report_v2.csv");
    reflexivity.
Defined.

(** X3. Suffixing twice is suffixing once with both suffixes joined,
    when the first suffix has no ["."]. *)
Theorem get_suffixed_twice (fname first second new_name : string) :
  get_suffixed fname first = Ret new_name ->
  contains first "." = false ->
  get_suffixed new_name second = get_suffixed fname (first ++ second).
Proof.
  intros G S. apply get_suffixed_ret in G as (stem & rest & -> & C & ->).
  transitivity (Ret (A := string) (stem ++ first ++ second ++ "." ++ rest)).
  - apply get_suffixed_ret. exists (stem ++ first), rest.
    split; [now rewrite append_assoc|].
    split; [now rewrite contains_char_append, C, S|].
    now rewrite !append_assoc.
  - symmetry. apply get_suffixed_ret. exists stem, rest.
    split; [reflexivity|]. split; [exact C|]. now rewrite !append_assoc.
Qed.

Lemma get_suffixed_twice_witness :
  get_suffixed "a_x.txt" "_y" = get_suffixed "a.txt" ("_x" ++ "_y").
Proof.
  apply (get_suffixed_twice "a.txt" "_x" "_y" "a_x.txt"); reflexivity.
Defined.

Lemma add_suffix_plan_entries (suffix : string) (names : list string)
    (plan : dict) :
  add_suffix_change_list suffix names = Ret plan ->
  (forall f, In f (keys plan) <-> In f names /\ endswith f suffix = false) /\
  (forall f v, get plan f = Some v ->
               In f names /\ endswith f suffix = false /\
               get_suffixed f suffix = Ret v).
Proof.
  intros E. apply comprehension_try_ret in E as [T ->].
  fold (comprehension names (fun x => negb (endswith x suffix))
          (fun x => x)
          (value_or_empty (fun x => get_suffixed x suffix))).
  split.
  - intros f.
    rewrite (keys_over_keys (fun x => negb (endswith x suffix))).
    now rewrite negb_true_iff.
  - intros f v G.
    apply (get_over_keys (fun x => negb (endswith x suffix))) in G
      as (I & C & ->).
    destruct (T f I C) as [v V]. unfold value_or_empty. rewrite V.
    apply negb_true_iff in C. tauto.
Qed.

(** A text ending in ["."] that ends with [e]: [e] is empty or ends in
    ["."] itself. *)
Lemma ends_in_dot (x pre e : string) :
  x ++ "." = pre ++ e -> e = "" \/ exists e', e = e' ++ ".".
Proof.
  intros E. apply append_eq_split in E as [(m & -> & M)|(m & -> & ->)].
  - destruct m as [|c m].
    + right. now exists "".
    + cbn [append] in M. injection M as _ M.
      destruct m; [|discriminate]. left. now destruct e.
  - right. now exists m.
Qed.

(** X4. [add_suffix] is not idempotent. A suffix without ["."] goes
    before the extension, so a planned new name does not end with the
    suffix either: whenever it is in a later listing, [add_suffix]
    plans it again. *)
Theorem add_suffix_plans_again (suffix : string) (names : list string)
    (plan : dict) (f v : string) :
  add_suffix_change_list suffix names = Ret plan ->
  contains suffix "." = false ->
  get plan f = Some v ->
  endswith v suffix = false /\
  forall later plan2,
    In v later ->
    add_suffix_change_list suffix later = Ret plan2 ->
    In v (keys plan2).
Proof.
  intros P S G.
  apply (add_suffix_plan_entries _ _ _ P) in G as (_ & F & G).
  apply get_suffixed_ret in G as (stem & rest & -> & C & ->).
  assert (endswith (stem ++ suffix ++ "." ++ rest) suffix = false) as V.
  { destruct (endswith (stem ++ suffix ++ "." ++ rest) suffix) eqn:V;
      [exfalso | reflexivity].
    apply endswith_iff in V as [pre V].
    assert (endswith (stem ++ "." ++ rest) suffix = true) as F';
      [|congruence].
    apply endswith_iff.
    replace (stem ++ suffix ++ "." ++ rest)
      with (((stem ++ suffix) ++ ".") ++ rest) in V
      by now rewrite !append_assoc.
    apply append_eq_split in V as [(e & _ & ->)|(e & E & V)].
    - exists (stem ++ "." ++ e). now rewrite !append_assoc.
    - apply ends_in_dot in E as [->|[e' ->]].
      + cbn [append] in V. subst suffix. exists (stem ++ ".").
        now rewrite append_assoc.
      + exfalso. subst suffix.
        rewrite append_assoc, contains_char_append in S.
        apply orb_false_iff in S as [_ S].
        assert (contains ("." ++ rest) "." = true) as S'; [|congruence].
        apply contains_iff. now exists "", rest. }
  split; [exact V|].
  intros later plan2 I P2.
  apply (add_suffix_plan_entries _ _ _ P2). now split.
Qed.

Lemma add_suffix_plans_again_witness :
  endswith "report_v2.csv" "_v2" = false /\
  forall later plan2,
    In "report_v2.csv" later ->
    add_suffix_change_list "_v2" later = Ret plan2 ->
    In "report_v2.csv" (keys plan2).
Proof.
  apply (add_suffix_plans_again "_v2" ["report.csv"]
           [("report.csv", "report_v2.csv")] "report.csv");
    reflexivity.
Defined.

(** X5. [add_enum] appends after the extension: the extension of a
    planned new name is the old extension followed by the separator and
    the number, and so differs from the old one. *)
Theorem add_enum_changes_ext (start : Z) (loc sep : string)
    (names : list string) (old new ext : string) :
  In (old, new) (items (add_enum_change_list start loc sep names)) ->
  get_ext old = Ret ext ->
  exists i, nth_error names i = Some old /\
            get_ext new = Ret (ext ++ sep ++ str (Z.of_nat i + start)) /\
            get_ext new <> get_ext old.
Proof.
  intros I G. apply add_enum_entry in I as (i & N & ->).
  exists i. split; [exact N|].
  rewrite (get_ext_append _ _ _ G). split; [reflexivity|].
  rewrite G. intros E. injection E as E.
  apply (f_equal String.length) in E. rewrite !length_append in E.
  pose proof (str_nonempty (Z.of_nat i + start)) as S.
  destruct (str (Z.of_nat i + start)); [now elim S | simpl in E; lia].
Qed.

Lemma add_enum_changes_ext_witness :
  exists i, nth_error ["a.txt"; "b.txt"] i = Some "b.txt" /\
            get_ext "b.txt_6" = Ret (".txt" ++ "_" ++ str (Z.of_nat i + 5)) /\
            get_ext "b.txt_6" <> get_ext "b.txt".
Proof.
  apply (add_enum_changes_ext 5 "end" "_" ["a.txt"; "b.txt"] "b.txt"
           "b.txt_6" ".txt").
  - right. now left.
  - reflexivity.
Defined.

(** The value that [rename_with_enum] computes for one listing entry. *)
Lemma rename_with_enum_value (basename : string) (idx : nat)
    (filename new_name : string) :
  match get_ext filename with
  | Ret ext => Ret (basename ++ str (Z.of_nat idx + 1) ++ ext)
  | Raise e => Raise e
  end = Ret new_name <->
  exists ext, get_ext filename = Ret ext /\
              new_name = basename ++ str (Z.of_nat idx + 1) ++ ext.
Proof.
  destruct (get_ext filename) as [ext|e]; split.
  - intros E. injection E as <-. now exists ext.
  - intros (ext' & E & ->). now injection E as <-.
  - discriminate.
  - intros (ext' & E & _). discriminate.
Qed.

Lemma rename_with_enum_items (basename : string) (names : list string)
    (plan : dict) :
  rename_with_enum_change_list basename names = Ret plan ->
  NoDup names ->
  (forall f, In f names -> exists ext, get_ext f = Ret ext) /\
  items plan =
  map (fun '(idx, filename) =>
         (filename,
          basename ++ str (Z.of_nat idx + 1)
          ++ match get_ext filename with Ret ext => ext | Raise _ => "" end))
      (enumerate names).
Proof.
  intros P N. apply comprehension_try_ret in P as [T ->]. split.
  - intros f I. apply In_nth_error in I as [i I].
    apply In_enumerate in I. destruct (T (i, f) I eq_refl) as [v V].
    apply rename_with_enum_value in V as (ext & E & _). now exists ext.
  - match goal with
    | |- items (fold_left ?step _ _) = _ =>
        change (fold_left step (enumerate names) [])
          with (comprehension (enumerate names) (fun _ => true)
                  (fun '(idx, filename) => filename)
                  (value_or_empty
                     (fun '(idx, filename) =>
                        match get_ext filename with
                        | Ret ext =>
                            Ret (basename ++ str (Z.of_nat idx + 1) ++ ext)
                        | Raise e => Raise e
                        end)))
    end.
    rewrite comprehension_fresh; rewrite filter_all.
    + apply map_ext_in. intros [idx filename] I. f_equal.
      unfold value_or_empty.
      destruct (T _ I eq_refl) as [v V]. rewrite V.
      apply rename_with_enum_value in V as (ext & -> & ->). reflexivity.
    + rewrite (map_ext _ snd) by now intros [idx filename].
      now rewrite map_snd_enumerate.
Qed.

(** X6. [rename_with_enum] plans every filename (there is no filter):
    it fails with [ValueError] exactly when some filename has no
    ["."], and otherwise, over a listing of distinct names, it maps the
    filename at index [i] to [basename], [str(i + 1)] and the extension
    of the filename, in listing order. *)
Theorem rename_with_enum_change_list_spec (basename : string)
    (names : list string) :
  (rename_with_enum_change_list basename names = Raise ValueError <->
   exists f, In f names /\ contains f "." = false) /\
  (forall plan,
     rename_with_enum_change_list basename names = Ret plan ->
     NoDup names ->
     keys plan = names /\
     forall i f, nth_error names i = Some f ->
       exists ext, get_ext f = Ret ext /\
                   get plan f
                   = Some (basename ++ str (Z.of_nat i + 1) ++ ext)).
Proof.
  split.
  - split.
    + intros R. apply comprehension_try_raise in R as ([i f] & I & _ & V).
      exists f. split.
      * apply In_enumerate in I. now apply nth_error_In in I.
      * destruct (get_ext f) as [ext|e] eqn:G; [discriminate|].
        now apply get_ext_raise in G.
    + intros (f & I & C).
      destruct (rename_with_enum_change_list basename names)
        as [plan|e] eqn:P.
      * apply comprehension_try_ret in P as [T _].
        apply In_nth_error in I as [i I]. apply In_enumerate in I.
        destruct (T (i, f) I eq_refl) as [v V].
        apply rename_with_enum_value in V as (ext & E & _).
        assert (get_ext f = Raise ValueError) as E'
          by now apply get_ext_raise.
        congruence.
      * apply comprehension_try_raise in P as ([i g] & _ & _ & V).
        destruct (get_ext g) as [ext|e'] eqn:G; [discriminate|].
        injection V as <-. now apply get_ext_raise in G as [-> _].
  - intros plan P N.
    destruct (rename_with_enum_items _ _ _ P N) as [D E].
    unfold items in E.
    assert (keys plan = names) as K.
    { unfold keys. rewrite E, map_map.
      rewrite (map_ext _ snd) by now intros [idx filename].
      apply map_snd_enumerate. }
    split; [exact K|]. intros i f I.
    destruct (D f (nth_error_In _ _ I)) as [ext G].
    exists ext. split; [exact G|].
    apply In_get_nodup; [now rewrite K|].
    rewrite E. apply in_map_iff. exists (i, f).
    split; [now rewrite G | now apply In_enumerate].
Qed.

(** The first ["."] splits a string in one way only. *)
Lemma first_dot_unique (a b c d : string) :
  contains a "." = false -> contains c "." = false ->
  a ++ "." ++ b = c ++ "." ++ d -> a = c /\ b = d.
Proof.
  intros A C E.
  assert (String.length a = String.length c) as L.
  { pose proof (find_dot_split a b A) as F. rewrite E in F.
    rewrite (find_dot_split c d C) in F. now injection F. }
  destruct (append_eq_length _ _ _ _ E L) as [-> E'].
  split; [reflexivity|]. now injection E'.
Qed.

(** X7. With a [basename] without ["."], every new name planned by
    [rename_with_enum] has the extension of its old name. *)
Theorem rename_with_enum_keeps_ext (basename : string)
    (names : list string) (plan : dict) (old new : string) :
  rename_with_enum_change_list basename names = Ret plan ->
  contains basename "." = false ->
  In (old, new) (items plan) ->
  get_ext new = get_ext old.
Proof.
  intros P B I. apply comprehension_try_ret in P as [T ->].
  apply (fold_comprehension_In (fun _ : nat * string => true)
           (fun '(idx, filename) => filename)
           (value_or_empty
              (fun '(idx, filename) =>
                 match get_ext filename with
                 | Ret ext => Ret (basename ++ str (Z.of_nat idx + 1) ++ ext)
                 | Raise e => Raise e
                 end)))
    in I as [[]|([i f] & I & _ & -> & ->)].
  unfold value_or_empty. destruct (T _ I eq_refl) as [v V]. rewrite V.
  apply rename_with_enum_value in V as (ext & G & ->). rewrite G.
  apply get_ext_ret in G as (stem & rest & _ & _ & ->).
  apply get_ext_ret. exists (basename ++ str (Z.of_nat i + 1)), rest.
  split; [now rewrite append_assoc|]. split; [|reflexivity].
  now rewrite contains_char_append, B, str_no_dot.
Qed.

Lemma rename_with_enum_keeps_ext_witness :
  get_ext "img2.png" = get_ext "b.png".
Proof.
  apply (rename_with_enum_keeps_ext "img" ["a.jpg"; "b.png"]
           [("a.jpg", "img1.jpg"); ("b.png", "img2.png")]);
    [reflexivity | reflexivity | right; now left].
Defined.

(** X8. [rename_with_enum] never plans two files onto one new name:
    over a listing of distinct names the new names are pairwise
    distinct. *)
Theorem rename_with_enum_new_names_distinct (basename : string)
    (names : list string) (plan : dict) :
  rename_with_enum_change_list basename names = Ret plan ->
  NoDup names ->
  NoDup (map snd (items plan)).
Proof.
  intros P N. destruct (rename_with_enum_items _ _ _ P N) as [D ->].
  rewrite map_map. apply NoDup_map_NoDup_ForallPairs.
  - intros [i f] [j g] I J E. cbn [snd] in E.
    apply In_enumerate in I, J.
    destruct (D f (nth_error_In _ _ I)) as [e1 G1].
    destruct (D g (nth_error_In _ _ J)) as [e2 G2].
    rewrite G1, G2 in E. apply append_inv_head in E.
    apply get_ext_ret in G1 as (_ & r1 & _ & _ & ->).
    apply get_ext_ret in G2 as (_ & r2 & _ & _ & ->).
    apply first_dot_unique in E as [E _]; try apply str_no_dot.
    apply str_inj in E. assert (i = j) as -> by lia.
    rewrite I in J. now injection J as ->.
  - apply (NoDup_map_inv snd). now rewrite map_snd_enumerate.
Qed.

Lemma rename_with_enum_new_names_distinct_witness :
  NoDup (map snd (items [("a.jpg", "img1.jpg"); ("b.jpg", "img2.jpg")])).
Proof.
  apply (rename_with_enum_new_names_distinct "img" ["a.jpg"; "b.jpg"]);
    [reflexivity|].
  repeat constructor; cbn [In]; intros F;
    repeat (destruct F as [F|F]; [discriminate|]); exact F.
Defined.

(** X9. [add_prefix] never plans two files onto one new name: over a
    listing of distinct names the new names are pairwise distinct. *)
Theorem add_prefix_new_names_distinct (prefix : string)
    (names : list string) :
  NoDup names ->
  NoDup (map snd (items (add_prefix_change_list prefix names))).
Proof.
  intros N. unfold add_prefix_change_list.
  rewrite comprehension_fresh
    by (rewrite map_id; now apply NoDup_filter).
  rewrite map_map. cbn [snd]. apply NoDup_map_NoDup_ForallPairs.
  - intros f g _ _ E. now apply append_inv_head in E.
  - now apply NoDup_filter.
Qed.

Lemma add_prefix_new_names_distinct_witness :
  NoDup (map snd (items (add_prefix_change_list "p_" ["a"; "p_b"; "c"]))).
Proof.
  apply add_prefix_new_names_distinct.
  repeat constructor; cbn [In]; intros F;
    repeat (destruct F as [F|F]; [discriminate|]); exact F.
Defined.

Lemma comprehension_try_none {A : Type} (xs : list A) (cond : A -> bool)
    (key : A -> string) (value : A -> Result string) (d : dict) :
  (forall x, In x xs -> cond x = false) ->
  comprehension_try xs cond key value d = Ret d.
Proof.
  induction xs as [|x xs IH]; cbn [comprehension_try]; intros F;
    [reflexivity|].
  rewrite (F x) by now left. apply IH. intros y Y. apply F. now right.
Qed.

(** X10. An empty prefix or suffix plans nothing, whatever the
    listing: every name starts and ends with the empty string. In
    particular [add_suffix] with an empty suffix does not fail on names
    without ["."]. *)
Theorem empty_affix_plans_nothing (names : list string) :
  add_prefix_change_list "" names = [] /\
  add_suffix_change_list "" names = Ret [].
Proof.
  split.
  - apply comprehension_none. intros f _. now rewrite startswith_empty.
  - apply comprehension_try_none. intros f _. now rewrite endswith_empty.
Qed.

(** X11. A prefix that starts with ["/"] takes the files out of the
    folder: [join_with_dir] returns such a new name as it is, so the
    target of every planned rename is the prefix followed by the old
    name, whatever the directory. *)
Theorem add_prefix_absolute_target (self : t) (prefix : string)
    (names : list string) (old new : string) :
  startswith prefix "/" = true ->
  In (old, new) (items (add_prefix_change_list prefix names)) ->
  join_with_dir self new = prefix ++ old.
Proof.
  intros S I. apply comprehension_In in I as (f & _ & _ & -> & ->).
  unfold join_with_dir, os_path_join.
  apply startswith_iff in S as [t ->].
  assert (startswith (("/" ++ t) ++ f) "/" = true) as ->; [|reflexivity].
  apply startswith_iff. exists (t ++ f). now rewrite append_assoc.
Qed.

Lemma add_prefix_absolute_target_witness :
  join_with_dir (make "d") "/tmp/a.txt" = "/tmp/" ++ "a.txt".
Proof.
  apply (add_prefix_absolute_target (make "d") "/tmp/" ["a.txt"]);
    [reflexivity | now left].
Defined.

Lemma joiner_txt (loc filename text : string) :
  endswith filename ".txt" = true ->
  exists new_name, joiner loc filename (Some text) = Ret new_name.
Proof.
  intros T. unfold joiner. destruct (loc =? "end")%string; [|now eexists].
  destruct (get_suffixed filename text) as [v|e] eqn:G; [now exists v|].
  apply get_suffixed_raise in G as [_ G].
  apply endswith_iff in T as [pre ->].
  assert (contains (pre ++ ".txt") "." = true) as C; [|congruence].
  apply contains_iff. now exists pre, "txt".
Qed.

(** What [add_from_file] needs of a [.txt] file to go on: its text can
    be read, and the search in it gives no match or a captured
    text. *)
Definition searchable {FS : Type} `{FileSystem FS} (re_search : Regex)
    (self : t) (pattern : string) (st : FS) (filename : string) : Prop :=
  exists txt,
    fs_read st (join_with_dir self filename) = Ret txt /\
    (re_search pattern txt = Ret None \/
     exists text, re_search pattern txt = Ret (Some (Group1 (Some text)))).

Lemma add_from_file_change_list_run {FS : Type} `{FileSystem FS}
    (re_search : Regex) (self : t) (pattern loc : string)
    (names : list string) :
  forall (d0 : dict) (w : World FS),
    (forall f, In f names -> endswith f ".txt" = true ->
               searchable re_search self pattern (fs w) f) ->
    exists d,
      add_from_file_change_list re_search self pattern loc names d0 w =
      (Ret d,
       mkWorld (fs w) (stdin w)
         (trace w ++
          map (fun f => EvPrint ("Skipping " ++ f))
              (filter (fun f => negb (endswith f ".txt")) names))%list) /\
      forall k, In k (keys d) ->
                In k (keys d0) \/ (In k names /\ endswith k ".txt" = true).
Proof.
  induction names as [|filename rest IH]; intros d0 w S;
    cbn [add_from_file_change_list filter map].
  - exists d0. unfold ret. rewrite app_nil_r. split; [now destruct w|].
    now left.
  - assert (forall f, In f rest -> endswith f ".txt" = true ->
                      searchable re_search self pattern (fs w) f) as S'
      by (intros f I; apply S; now right).
    destruct (endswith filename ".txt") eqn:T; cbn [negb].
    + destruct (S filename (or_introl eq_refl) T) as (txt & O & [N|[text M]]).
      * unfold bind at 1, open_read. rewrite O.
        unfold bind at 1, lift at 1. rewrite N.
        destruct (IH d0 w S') as (d & -> & K).
        exists d. split; [reflexivity|]. intros k I.
        apply K in I as [I|[I E]]; [now left|].
        right. split; [now right | exact E].
      * unfold bind at 1, open_read. rewrite O.
        unfold bind at 1, lift at 1. rewrite M.
        unfold bind at 1, lift at 1. cbn [group1].
        destruct (joiner_txt loc filename text T) as [v V].
        unfold bind at 1, lift at 1. rewrite V.
        destruct (IH (set d0 filename v) w S') as (d & -> & K).
        exists d. split; [reflexivity|]. intros k I.
        apply K in I as [I|[I E]]; [|right; split; [now right | exact E]].
        apply get_Some_key in I as [x G]. rewrite get_set in G.
        destruct (String.eqb_spec filename k) as [->|_].
        -- right. split; [now left | exact T].
        -- left. apply get_Some_key. now exists x.
    + unfold bind at 1, print.
      destruct (IH d0 (log (EvPrint ("Skipping " ++ filename)) w) S')
        as (d & -> & K).
      exists d. cbn [log fs stdin trace map]. rewrite <- app_assoc.
      split; [reflexivity|]. intros k I.
      apply K in I as [I|[I E]]; [now left|].
      right. split; [now right | exact E].
Qed.

(** X12. The planning of [add_from_file] cannot fail in [get_suffixed],
    whatever [loc]: it only joins names that end in [.txt], which have
    an extension to find. When the text of every [.txt] file can be
    read and every search gives no match or a captured text, the
    planning returns; it changes neither the file system nor the
    input, and prints one notice for every other name, in listing
    order. *)
Theorem add_from_file_planning_returns {FS : Type} `{FileSystem FS}
    (re_search : Regex) (self : t) (pattern loc : string)
    (names : list string) (w : World FS) :
  (forall f, In f names -> endswith f ".txt" = true ->
             searchable re_search self pattern (fs w) f) ->
  exists plan,
    add_from_file_change_list re_search self pattern loc names [] w =
    (Ret plan,
     mkWorld (fs w) (stdin w)
       (trace w ++
        map (fun f => EvPrint ("Skipping " ++ f))
            (filter (fun f => negb (endswith f ".txt")) names))%list) /\
    forall k, In k (keys plan) -> In k names /\ endswith k ".txt" = true.
Proof.
  intros S.
  destruct (add_from_file_change_list_run re_search self pattern loc names
              [] w S) as (plan & R & K).
  exists plan. split; [exact R|]. intros k I.
  now destruct (K k I) as [[]|E].
Qed.

Lemma add_from_file_planning_returns_witness :
  exists plan,
    add_from_file_change_list MemFS.literal_search MemFS.folder "zip" "end"
      ["report.csv"; "notes.txt"] [] (mkWorld MemFS.with_notes [] []) =
    (Ret plan,
     mkWorld MemFS.with_notes []
       ([] ++
        map (fun f => EvPrint ("Skipping " ++ f))
            (filter (fun f => negb (endswith f ".txt"))
                    ["report.csv"; "notes.txt"]))%list) /\
    forall k, In k (keys plan) ->
              In k ["report.csv"; "notes.txt"] /\ endswith k ".txt" = true.
Proof.
  apply (add_from_file_planning_returns MemFS.literal_search MemFS.folder
           "zip" "end" ["report.csv"; "notes.txt"]
           (mkWorld MemFS.with_notes [] [])).
  intros f [<-|[<-|[]]] T; [discriminate|].
  exists "zip 12345". split; [reflexivity|]. right. now exists "zip 12345".
Defined.

(** X23. What [add_from_file] cannot plan it does not hide: when the
    first [.txt] file of the listing cannot be read, or its search
    raises, or the pattern has no group 1, or the group took no part
    in the match, the planning raises ([TypeError] in the last case)
    before anything is asked or renamed. *)
Theorem add_from_file_planning_raises {FS : Type} `{FileSystem FS}
    (re_search : Regex) (self : t) (pattern loc : string)
    (filename : string) (rest : list string) (d0 : dict) (w : World FS) :
  endswith filename ".txt" = true ->
  (forall e, fs_read (fs w) (join_with_dir self filename) = Raise e ->
     add_from_file_change_list re_search self pattern loc
       (filename :: rest) d0 w = (Raise e, w)) /\
  (forall txt,
     fs_read (fs w) (join_with_dir self filename) = Ret txt ->
     (forall e, re_search pattern txt = Raise e ->
        add_from_file_change_list re_search self pattern loc
          (filename :: rest) d0 w = (Raise e, w)) /\
     (re_search pattern txt = Ret (Some NoGroup1) ->
        add_from_file_change_list re_search self pattern loc
          (filename :: rest) d0 w = (Raise IndexError, w)) /\
     (re_search pattern txt = Ret (Some (Group1 None)) ->
        add_from_file_change_list re_search self pattern loc
          (filename :: rest) d0 w = (Raise TypeError, w))).
Proof.
  intros T.
  assert (contains filename "." = true) as C.
  { apply endswith_iff in T as [pre ->].
    apply contains_iff. now exists pre, "txt". }
  cbn [add_from_file_change_list]. rewrite T. cbn [negb].
  split; [|intros txt O; split; [|split]].
  - intros e O. unfold bind, open_read. now rewrite O.
  - intros e S. unfold bind, open_read, lift. rewrite O. cbv beta iota.
    now rewrite S.
  - intros S. unfold bind, open_read, lift. rewrite O. cbv beta iota.
    now rewrite S.
  - intros S. unfold bind, open_read, lift. rewrite O. cbv beta iota.
    rewrite S. cbv beta iota. cbn [group1]. cbv beta iota.
    unfold joiner. destruct (loc =? "end")%string; [|reflexivity].
    unfold index. destruct (find filename ".") eqn:F; [reflexivity|].
    apply find_none_iff in F. congruence.
Qed.

Lemma add_from_file_planning_raises_witness :
  add_from_file_change_list MemFS.literal_search MemFS.folder "zip" "end"
    ["missing.txt"; "notes.txt"] [] (mkWorld MemFS.with_notes [] [])
  = (Raise OSError, mkWorld MemFS.with_notes [] []).
Proof.
  destruct (add_from_file_planning_raises MemFS.literal_search MemFS.folder
              "zip" "end" "missing.txt" ["notes.txt"] []
              (mkWorld MemFS.with_notes [] [])) as [R _];
    [reflexivity|].
  apply R. reflexivity.
Defined.

End MorePlanner.

(* ================================================================= *)
(** ** More about the executor and the other methods *)

Section MoreExecutor.
Import PyStr PyStrFacts PyDictFacts ReplaceFacts FileReNamer Spec.
Context {FS : Type} `{FileSystem FS}.

(** X13. When no answer can be read, [rename_these] raises [EOFError]
    after its prompt and has changed nothing: the file system is the
    same and no rename was invoked. *)
Theorem rename_these_without_answer (self : t) (files_to_change : dict)
    (display : bool) (w : World FS) :
  stdin w = [] ->
  exists events,
    rename_these self files_to_change display w =
    (Raise EOFError, mkWorld (fs w) [] (trace w ++ events)%list) /\
    In (EvInput "Make these changes? (y/n): ") events /\
    forall old_path new_path, ~ In (EvRename old_path new_path) events.
Proof.
  intros I. exists (preview files_to_change display).
  split; [now apply rename_these_eof_run|]. split.
  - unfold preview. apply in_or_app. right. now left.
  - intros old_path new_path. apply preview_no_rename.
Qed.

(** X14. The flag [display] only decides whether the preview is
    printed: with and without it [rename_these] gives the same result,
    the same file system and the same remaining input. *)
Theorem rename_these_display_only_prints (self : t) (files_to_change : dict)
    (w : World FS) :
  let shown := rename_these self files_to_change true w in
  let silent := rename_these self files_to_change false w in
  fst shown = fst silent /\
  fs (snd shown) = fs (snd silent) /\
  stdin (snd shown) = stdin (snd silent).
Proof.
  cbv zeta. destruct (stdin w) as [|ans rest] eqn:I.
  - now rewrite !(rename_these_eof_run _ _ _ _ I).
  - destruct (String.eqb_spec ans "y") as [->|N].
    + now rewrite !(rename_these_confirmed_run _ _ _ _ _ I).
    + now rewrite !(rename_these_declined_run _ _ _ _ _ _ I N).
Qed.

(** X15. An empty plan is not a shortcut: [rename_these] still asks
    and consumes one answer, and whatever the answer is, the file
    system is the one before and no rename is invoked. *)
Theorem rename_these_empty_plan (self : t) (display : bool) (w : World FS)
    (ans : string) (rest : list string) :
  stdin w = ans :: rest ->
  exists events,
    rename_these self [] display w =
    (Ret tt, mkWorld (fs w) rest (trace w ++ events)%list) /\
    In (EvInput "Make these changes? (y/n): ") events /\
    forall old_path new_path, ~ In (EvRename old_path new_path) events.
Proof.
  intros I. destruct (String.eqb_spec ans "y") as [->|N].
  - exists (preview [] display).
    rewrite (rename_these_confirmed_run _ _ _ _ _ I).
    cbn. rewrite app_nil_r.
    split; [reflexivity|]. split.
    + unfold preview. apply in_or_app. right. now left.
    + intros old_path new_path. apply preview_no_rename.
  - exists (preview [] display
            ++ [EvPrint ("Changes discarded..." ++ newline)])%list.
    rewrite (rename_these_declined_run _ _ _ _ _ _ I N).
    split; [reflexivity|]. split.
    + unfold preview. apply in_or_app. left. apply in_or_app. right.
      now left.
    + intros old_path new_path R. apply in_app_or in R as [R|[R|[]]];
        [now apply preview_no_rename in R | discriminate].
Qed.

(** X16. [rename_these] renames nothing but what the plan says: every
    rename it invokes is from the path of a key of the plan to the path
    of that key's value, both joined with the directory. *)
Theorem rename_these_renames_plan_entries_only (self : t)
    (files_to_change : dict) (display : bool) (w : World FS)
    (old_path new_path : string) :
  In (EvRename old_path new_path)
     (trace (snd (rename_these self files_to_change display w))) ->
  In (EvRename old_path new_path) (trace w) \/
  exists old new, In (old, new) (items files_to_change) /\
                  old_path = join_with_dir self old /\
                  new_path = join_with_dir self new.
Proof.
  destruct (stdin w) as [|ans rest] eqn:I.
  - rewrite (rename_these_eof_run _ _ _ _ I). cbn [snd trace]. intros R.
    apply in_app_or in R as [R|R]; [now left|].
    now apply preview_no_rename in R.
  - destruct (String.eqb_spec ans "y") as [->|N].
    + rewrite (rename_these_confirmed_run _ _ _ _ _ I). cbn [snd trace].
      intros R. apply in_app_or in R as [R|R]; [now left|].
      apply in_app_or in R as [R|R]; [now apply preview_no_rename in R|].
      apply report_has_rename in R as (old & new & R & -> & ->).
      right. exists old, new. split; [|now split].
      destruct R as [R|R];
        [now apply execute_outcome_entry in R
        | now apply execute_failed_entry in R].
    + rewrite (rename_these_declined_run _ _ _ _ _ _ I N). cbn [snd trace].
      intros R. apply in_app_or in R as [R|R]; [now left|].
      apply in_app_or in R as [R|[R|[]]];
        [now apply preview_no_rename in R | discriminate].
Qed.




Lemma replace_run (self : t) (change_this to_this : string) (w : World FS) :
  replace self change_this to_this w =
  rename_these self
    (replace_change_list change_this to_this
       (fs_listdir (fs w) (directory self))) true w.
Proof. reflexivity. Qed.


(** One answered call of [rename_these]: the answer is consumed; the
    call returns, unless the answer was ["y"] and a rename raised. *)
Lemma rename_these_answered (self : t) (files_to_change : dict)
    (display : bool) (w : World FS) (ans : string) (rest : list string) :
  stdin w = ans :: rest ->
  exists r w',
    rename_these self files_to_change display w = (r, w') /\
    stdin w' = rest /\
    (r = Ret tt \/ (r = Raise OSError /\ ans = "y")) /\
    (ans <> "y" -> r = Ret tt /\ fs w' = fs w).
Proof.
  intros I. destruct (String.eqb_spec ans "y") as [->|N].
  - do 2 eexists. rewrite (rename_these_confirmed_run _ _ _ _ _ I).
    split; [reflexivity|]. split; [reflexivity|]. split; [|now intros N].
    unfold result. destruct (failed _); [right; now split | now left].
  - do 2 eexists. rewrite (rename_these_declined_run _ _ _ _ _ _ I N).
    split; [reflexivity|]. split; [reflexivity|].
    split; [now left | now intros _].
Qed.


Lemma replace_these_declined_run (self : t)
    (entries : list (string * string)) :
  forall w : World FS,
    List.length entries <= List.length (stdin w) ->
    Forall (fun ans => ans <> "y")
           (firstn (List.length entries) (stdin w)) ->
    exists w',
      for_each (fun '(change_this, to_this) =>
                  replace self change_this to_this) entries w
      = (Ret tt, w') /\
      stdin w' = skipn (List.length entries) (stdin w) /\
      fs w' = fs w.
Proof.
  induction entries as [|[change_this to_this] entries IH]; intros w L A;
    cbn [for_each List.length] in *.
  - exists w. now repeat split.
  - destruct (stdin w) as [|ans rest] eqn:I; cbn [List.length] in L; [lia|].
    cbn [firstn] in A. apply Forall_cons_iff in A as [A1 A2].
    unfold bind. rewrite replace_run.
    destruct (rename_these_answered self
                (replace_change_list change_this to_this
                   (fs_listdir (fs w) (directory self))) true w ans rest I)
      as (r & w1 & -> & S1 & _ & D).
    destruct (D A1) as [-> F1].
    destruct (IH w1) as (w2 & -> & S2 & F2);
      [rewrite S1; lia | now rewrite S1 |].
    exists w2. split; [reflexivity|]. rewrite S1 in S2.
    split; [exact S2 | congruence].
Qed.


(** X19. When every amendment of [replace_these] is declined, the file
    system is left as it was. *)
Theorem replace_these_all_declined (self : t) (ammendments : dict)
    (w : World FS) :
  List.length (items ammendments) <= List.length (stdin w) ->
  Forall (fun ans => ans <> "y")
         (firstn (List.length (items ammendments)) (stdin w)) ->
  fs (snd (replace_these self ammendments w)) = fs w.
Proof.
  intros L A.
  destruct (replace_these_declined_run self (items ammendments) w L A)
    as (w' & R & _ & F).
  unfold replace_these. now rewrite R.
Qed.





(** X22. [rename_with_enum] fails before it asks or renames anything:
    when a filename of the directory has no ["."], the method raises
    [ValueError] and leaves the world as it found it. *)
Theorem rename_with_enum_fails_early (self : t) (basename : string)
    (display : bool) (w : World FS) (filename : string) :
  In filename (fs_listdir (fs w) (directory self)) ->
  contains filename "." = false ->
  rename_with_enum self basename display w = (Raise ValueError, w).
Proof.
  intros I C. unfold rename_with_enum, bind, filenames, lift.
  destruct (rename_with_enum_change_list basename
              (fs_listdir (fs w) (directory self))) as [plan|e] eqn:P.
  - exfalso. apply TryFacts.comprehension_try_ret in P as [T _].
    apply In_nth_error in I as [i I]. apply EnumerateFacts.In_enumerate in I.
    destruct (T (i, filename) I eq_refl) as [v V].
    apply rename_with_enum_value in V as (ext & E & _).
    assert (get_ext filename = Raise ValueError) as E'
      by now apply NameFacts.get_ext_raise.
    congruence.
  - apply TryFacts.comprehension_try_raise in P as ([i g] & _ & _ & V).
    destruct (get_ext g) as [ext|e'] eqn:G; [discriminate|].
    injection V as <-. now apply NameFacts.get_ext_raise in G as [-> _].
Qed.

End MoreExecutor.

Section MoreExamples.
Import PyStr FileReNamer Spec MemFS.

Lemma rename_these_without_answer_witness :
  exists events,
    rename_these folder [("report.csv", "final.csv")] false
      (mkWorld two_files [] []) =
    (Raise EOFError, mkWorld two_files [] ([] ++ events)%list) /\
    In (EvInput "Make these changes? (y/n): ") events /\
    forall old_path new_path, ~ In (EvRename old_path new_path) events.
Proof.
  exact (rename_these_without_answer folder [("report.csv", "final.csv")]
           false (mkWorld two_files [] []) eq_refl).
Defined.

Lemma rename_these_empty_plan_witness :
  exists events,
    rename_these folder [] false
      (mkWorld two_files ["y"] []) =
    (Ret tt, mkWorld two_files [] ([] ++ events)%list) /\
    In (EvInput "Make these changes? (y/n): ") events /\
    forall old_path new_path, ~ In (EvRename old_path new_path) events.
Proof.
  exact (rename_these_empty_plan folder false
           (mkWorld two_files ["y"] []) "y" [] eq_refl).
Defined.

Lemma rename_these_renames_plan_entries_only_witness :
  In (EvRename "d/report.csv" "d/final.csv") [] \/
  exists old new,
    In (old, new) (items [("report.csv", "final.csv")]) /\
    "d/report.csv" = join_with_dir folder old /\
    "d/final.csv" = join_with_dir folder new.
Proof.
  apply (rename_these_renames_plan_entries_only folder
           [("report.csv", "final.csv")] false
           (mkWorld two_files ["y"] [])).
  vm_compute. right. now left.
Defined.



Lemma replace_these_all_declined_witness :
  fs (snd (replace_these folder [("report", "final"); ("summary", "short")]
             (mkWorld two_files ["n"; ""; "y"] [])))
  = two_files.
Proof.
  apply (replace_these_all_declined folder
           [("report", "final"); ("summary", "short")]
           (mkWorld two_files ["n"; ""; "y"] [])).
  - cbn. lia.
  - cbn. repeat constructor; discriminate.
Defined.


Lemma rename_with_enum_fails_early_witness :
  rename_with_enum folder "img" true
    (mkWorld ((["d"; "README"], File "") :: two_files) ["y"] [])
  = (Raise ValueError,
     mkWorld ((["d"; "README"], File "") :: two_files) ["y"] []).
Proof.
  apply (rename_with_enum_fails_early folder "img" true
           (mkWorld ((["d"; "README"], File "") :: two_files) ["y"] [])
           "README");
    [now left | reflexivity].
Defined.

(** A run of [replace_these] in which a rename fails: the first
    amendment, answered ["y"], renames into a folder that is missing,
    and the second amendment is never asked. *)
Example replace_these_failed_rename :
  exists w',
    replace_these folder [("_", "/"); ("c", "e")]
      (mkWorld underscore_files ["y"; "y"] []) = (Raise OSError, w') /\
    stdin w' = ["y"] /\ fs w' = underscore_files.
Proof. eexists. repeat split. Qed.

End MoreExamples.
